(** * A shallow embedding of [backend/docker.go]

    The Docker backend of the worker: the CPU-set pool
    ([checkoutCPUSets] / [checkinCPUSets]), the tag based image selector
    ([findDockerImageByTag], [Select]), the provisioning flow ([Start]),
    the secure-shell transport ([uploadScriptSCP], [runScriptSSH]) and the
    instance operations ([Stop], [ID]).

    Conventions.
    - A Go [int] is a [Z]; a Go [string] or [[]byte] is a [string] (a list of
      bytes); a pointer that may be nil is an [option].
    - A Go panic (nil dereference, index or slice bound out of range) is the
      outcome [Panic]; a Go [(value, error)] pair is a pair whose second
      component is an [option error].
    - The Docker daemon, the SSH peer, the clock and the UUID source are not
      part of the program: their answers are the fields of the record
      [docker] (for the client) and of [sshPeer].
    - Mutable shared state (the provider's [cpuSets]) is threaded explicitly
      through the state monad [M]. *)

From Stdlib Require Import String Ascii List ZArith NArith Lia Bool Sorted
  Permutation.
Import ListNotations.
Open Scope string_scope.
Open Scope Z_scope.

(** ** Go runtime and standard library *)

Module Go.

(** Outcome of running a piece of Go code: it returns, or it panics. *)
Inductive result (A : Type) : Type :=
| Ret (a : A)
| Panic (why : string).
Arguments Ret {A} a.
Arguments Panic {A} why.

(** Errors. [ErrStaleVM] is the sentinel declared in package [backend];
    [DeadlineExceeded] and [Canceled] are those of package [context];
    [Errorf] is [fmt.Errorf] / [errors.New] (and every error made by a
    collaborator); [Wrapped] is what [errors.Wrap] returns. *)
Inductive error : Type :=
| ErrStaleVM
| DeadlineExceeded
| Canceled
| Errorf (msg : string)
| Wrapped (cause : error) (msg : string).

(** [errors.Wrap(err, msg)]: nil stays nil. *)
Definition Wrap (err : option error) (msg : string) : option error :=
  match err with
  | None => None
  | Some e => Some (Wrapped e msg)
  end.

Definition maxUint64 : Z := 2 ^ 64 - 1.
Definition maxInt : Z := 2 ^ 63 - 1.

(** Conversion [int(v)] of a [uint64] on a 64 bit platform. *)
Definition int_of_uint64 (v : Z) : Z :=
  if v <=? maxInt then v else v - 2 ^ 64.

(** Conversion [int64(v)] of a [uint64]. *)
Definition int64_of_uint64 (v : Z) : Z :=
  if v <=? 2 ^ 63 - 1 then v else v - 2 ^ 64.

(** [strings.Split(s, sep)] for a one byte separator. *)
Fixpoint Split (s : string) (sep : ascii) : list string :=
  match s with
  | EmptyString => [EmptyString]
  | String c rest =>
      if Ascii.eqb c sep then EmptyString :: Split rest sep
      else match Split rest sep with
           | [] => [String c EmptyString]
           | tok :: toks => String c tok :: toks
           end
  end.

(** [strings.Join(elems, sep)]. *)
Fixpoint Join (elems : list string) (sep : string) : string :=
  match elems with
  | [] => EmptyString
  | [e] => e
  | e :: rest => e ++ sep ++ Join rest sep
  end.

(** [strings.Contains(s, sep)] for a one byte [sep]. *)
Fixpoint ContainsByte (s : string) (sep : ascii) : bool :=
  match s with
  | EmptyString => false
  | String c rest => Ascii.eqb c sep || ContainsByte rest sep
  end.

(** [strings.SplitN(s, sep, 2)] for a one byte separator: cut at the first
    occurrence. *)
Fixpoint SplitN2 (s : string) (sep : ascii) : list string :=
  match s with
  | EmptyString => [EmptyString]
  | String c rest =>
      if Ascii.eqb c sep then [EmptyString; rest]
      else match SplitN2 rest sep with
           | [] => [String c EmptyString]
           | tok :: toks => String c tok :: toks
           end
  end.

(** The slice expression [s[0:n]]: panics when [n] exceeds [len(s)]. *)
Definition slice0 (s : string) (n : nat) : result string :=
  if (n <=? String.length s)%nat then Ret (substring 0 n s)
  else Panic "slice bounds out of range".

(** *** Decimal formatting and parsing *)

Definition digitChar (d : N) : ascii := ascii_of_N (48 + d).

Definition digitVal (c : ascii) : option N :=
  let n := N_of_ascii c in
  if ((48 <=? n) && (n <=? 57))%N then Some (n - 48)%N else None.

(** Digits of [n], most significant first, pushed in front of [acc]; one
    digit is produced per unit of [fuel]. *)
Fixpoint formatBits (fuel : nat) (n : N) (acc : string) : string :=
  match fuel with
  | O => acc
  | S fuel' =>
      let acc' := String (digitChar (n mod 10)) acc in
      if (n / 10 =? 0)%N then acc' else formatBits fuel' (n / 10)%N acc'
  end.

(** A number has no more decimal digits than binary ones. *)
Definition formatUint (n : N) : string :=
  formatBits (S (N.to_nat (N.log2 n))) n EmptyString.

(** [strconv.Itoa(i)] and [fmt.Sprintf("%d", i)]. *)
Definition Itoa (i : Z) : string :=
  if i <? 0 then String "-" (formatUint (Z.to_N (- i)))
  else formatUint (Z.to_N i).

Fixpoint parseDigits (s : string) (acc : N) : option N :=
  match s with
  | EmptyString => Some acc
  | String c rest =>
      match digitVal c with
      | Some d => parseDigits rest (10 * acc + d)%N
      | None => None
      end
  end.

(** [strconv.ParseUint(s, 10, 64)]: [None] stands for a non-nil error
    (syntax error on the empty string or on any byte that is not a decimal
    digit, range error above [maxUint64]). *)
Definition ParseUint (s : string) : option Z :=
  match s with
  | EmptyString => None
  | _ =>
      match parseDigits s 0%N with
      | Some v => if Z.of_N v <=? maxUint64 then Some (Z.of_N v) else None
      | None => None
      end
  end.

(** *** Slices of booleans *)

(** The assignment [a[i] = v]; [None] is the index-out-of-range panic. *)
Fixpoint update (a : list bool) (i : nat) (v : bool) : list bool :=
  match a, i with
  | [], _ => []
  | _ :: rest, O => v :: rest
  | x :: rest, S i' => x :: update rest i' v
  end.

Definition store (a : list bool) (i : Z) (v : bool) : option (list bool) :=
  if (0 <=? i) && (i <? Z.of_nat (List.length a))
  then Some (update a (Z.to_nat i) v)
  else None.

End Go.
Import Go.

(** ** Data model *)

(** [docker.APIImages]: the fields the selector reads. *)
Record APIImages := mkImage {
  imgID : string;
  RepoTags : list string
}.

(** [docker.Config] and [docker.HostConfig]: the fields [Start] fills. *)
Record Config := mkConfig {
  Cmd : list string;
  Image : string;
  Memory : Z;
  Hostname : string;
  CPUSet : string
}.

Record HostConfig := mkHostConfig {
  Privileged : bool;
  hostMemory : Z;
  ShmSize : Z;
  Tmpfs : list (string * string);
  hostCPUSet : string
}.

(** [docker.Container]; [Config] and [HostConfig] are pointers. *)
Record Container := mkContainer {
  ID : string;
  cConfig : option Config;
  cHostConfig : option HostConfig;
  Running : bool;
  IPAddress : string;
  Created : Z
}.

Definition withConfigs (c : Container) (cfg : Config) (hc : HostConfig)
  : Container :=
  mkContainer (ID c) (Some cfg) (Some hc) (Running c) (IPAddress c) (Created c).

(** The two image selectors [buildDockerImageSelector] can build. *)
Inductive selector := TagSelector | APISelector.

(** [dockerProvider], without the client and dialer handles. *)
Record dockerProvider := mkProvider {
  sshDialTimeout : Z;
  runPrivileged : bool;
  runCmd : list string;
  runMemory : Z;
  runShm : Z;
  runCPUs : Z;
  runNative : bool;
  execCmd : list string;
  tmpFs : list (string * string);
  imageSelector : selector;
  cpuSets : list bool
}.

Definition setCPUSets (p : dockerProvider) (flags : list bool)
  : dockerProvider :=
  mkProvider (sshDialTimeout p) (runPrivileged p) (runCmd p) (runMemory p)
    (runShm p) (runCPUs p) (runNative p) (execCmd p) (tmpFs p)
    (imageSelector p) flags.

(** [dockerInstance]; the [provider] back-reference is the provider held by
    the machine state below. *)
Record dockerInstance := mkInstance {
  container : option Container;
  startBooting : Z;
  imageName : string;
  instRunNative : bool
}.

Record StartAttributes := mkAttrs {
  attrLanguage : string;
  attrImageName : string
}.

Record RunResult := mkRunResult {
  Completed : bool;
  ExitCode : Z
}.

(** What the program does to the outside, in order. *)
Inductive event :=
| LogError (msg : string) (err : error)
| LogInfo (msg : string) (field : string)
| LogDebug (msg : string)
| CreateContainerCall (cfg : Config) (hc : HostConfig)
| RemoveContainerCall (id : string) (removeVolumes force : bool)
| StartContainerCall (id : string)
| StopContainerCall (id : string) (grace : Z)
| InspectContainerCall (id : string)
| DialCall (addr user : string) (timeout : Z)
| UploadFileCall (name data : string)
| RunCommandCall (cmd : string)
| CloseCall
| MetricTimeSince (name : string) (since : Z)
| MetricMark (name : string).

(** The state the program runs in: the provider with its pool, the files of
    the SSH peer, and the trace of effects. *)
Record machine := mkMachine {
  provider : dockerProvider;
  remoteFiles : list (string * string);
  events : list event
}.

(** ** The state monad with panics *)

Definition M (A : Type) : Type := machine -> result (A * machine).

Definition ret {A} (a : A) : M A := fun m => Ret (a, m).

Definition bind {A B} (c : M A) (k : A -> M B) : M B :=
  fun m => match c m with
           | Ret (a, m') => k a m'
           | Panic why => Panic why
           end.

Definition panic {A} (why : string) : M A := fun _ => Panic why.

Notation "x <- c ;; k" := (bind c (fun x => k))
  (at level 100, c at next level, right associativity).
Notation "c ;;; k" := (bind c (fun _ => k))
  (at level 100, right associativity).

Definition emit (e : event) : M unit :=
  fun m => Ret (tt, mkMachine (provider m) (remoteFiles m)
                          (events m ++ [e])%list).

Definition getProvider : M dockerProvider := fun m => Ret (provider m, m).

Definition putCPUSets (flags : list bool) : M unit :=
  fun m => Ret (tt, mkMachine (setCPUSets (provider m) flags)
                              (remoteFiles m) (events m)).

(** Dereference of a pointer. *)
Definition deref {A} (p : option A) : M A :=
  match p with
  | Some a => ret a
  | None => panic "invalid memory address or nil pointer dereference"
  end.

(** ** The CPU-set pool *)

(** The scan of [checkoutCPUSets]: [i] is the index of the head of [flags],
    [acc] the indices collected so far. The length test follows the append
    in every iteration, as in the source. *)
Fixpoint scanFree (n : Z) (flags : list bool) (i : Z) (acc : list Z)
  : list Z :=
  match flags with
  | [] => acc
  | checkedOut :: rest =>
      let acc' := if negb checkedOut then (acc ++ [i])%list else acc in
      if Z.of_nat (List.length acc') =? n then acc'
      else scanFree n rest (i + 1) acc'
  end.

(** The marking loop: [p.cpuSets[cpuSet] = true] for each collected index,
    and the decimal strings. *)
Fixpoint markAll (flags : list bool) (sel : list Z)
  : option (list bool) :=
  match sel with
  | [] => Some flags
  | cpuSet :: rest =>
      match store flags cpuSet true with
      | Some flags' => markAll flags' rest
      | None => None
      end
  end.

Definition errNotEnough : error := Errorf "not enough free CPUsets".

Definition checkoutCPUSets : M (string * option error) :=
  p <- getProvider ;;
  let sel := scanFree (runCPUs p) (cpuSets p) 0 [] in
  if negb (Z.of_nat (List.length sel) =? runCPUs p)
  then ret (EmptyString, Some errNotEnough)
  else match markAll (cpuSets p) sel with
       | Some flags' =>
           putCPUSets flags' ;;;
           ret (Join (map Itoa sel) ",", None)
       | None => panic "index out of range"
       end.

(** The loop of [checkinCPUSets] over the tokens. *)
Fixpoint checkinTokens (flags : list bool) (toks : list string)
  : option (list bool) :=
  match toks with
  | [] => Some flags
  | cpuString :: rest =>
      match ParseUint cpuString with
      | None => checkinTokens flags rest
      | Some cpu =>
          match store flags (int_of_uint64 cpu) false with
          | Some flags' => checkinTokens flags' rest
          | None => None
          end
      end
  end.

Definition checkinCPUSets (sets : string) : M unit :=
  p <- getProvider ;;
  match checkinTokens (cpuSets p) (Split sets ",") with
  | Some flags' => putCPUSets flags'
  | None => panic "index out of range"
  end.

(** ** The outside world *)

(** Answers of the Docker daemon (through [docker.Client]), of the remote
    image catalog, of the clock and of the UUID source during one operation.
    [InspectPolls] lists the successive answers to the readiness poll of
    [Start]; when they run out the context is done with [ctxErr].
    [TrimSpace] is [strings.TrimSpace]. *)
Record docker := mkDocker {
  ListImages : list APIImages * option error;
  apiSelect : string * option error;
  CreateContainer : option Container * option error;
  RemoveContainer : option error;
  StartContainer : option error;
  InspectPolls : list (option Container * option error);
  InspectContainer : option Container * option error;
  StopContainer : option error;
  ctxErr : error;
  newUUID : string;
  now : Z;
  TrimSpace : string -> string
}.

(** Answers of the SSH side: whether dialing fails, what [UploadFile]
    reports besides the existence flag, and what [RunCommand] returns. *)
Record sshPeer := mkPeer {
  Dial : option error;
  existedErr : option error;
  writeErr : option error;
  RunCommand : Z * option error
}.

(** ** Image selection *)

(** The two inner loops of [findDockerImageByTag] for one search tag: the
    identifier of the first image whose ID or one of whose repository tags
    equals [searchTag]. *)
Fixpoint findInImages (searchTag : string) (images : list APIImages)
  : option string :=
  match images with
  | [] => None
  | image :: rest =>
      if String.eqb searchTag (imgID image) then Some (imgID image)
      else if existsb (fun tag => String.eqb tag searchTag) (RepoTags image)
           then Some (imgID image)
           else findInImages searchTag rest
  end.

Definition errNoTag : error :=
  Errorf "failed to find matching docker image tag".

Fixpoint findDockerImageByTag (searchTags : list string)
  (images : list APIImages) : string * string * option error :=
  match searchTags with
  | [] => (EmptyString, EmptyString, Some errNoTag)
  | searchTag :: rest =>
      match findInImages searchTag images with
      | Some id => (id, searchTag, None)
      | None => findDockerImageByTag rest images
      end
  end.

(** [dockerTagImageSelector.Select]. *)
Definition Select (d : docker) (language : string) : string * option error :=
  let '(images, err) := ListImages d in
  match err with
  | Some e => (EmptyString, Wrap (Some e) "failed to list docker images")
  | None =>
      let '(_, imageName, err) :=
        findDockerImageByTag
          [ "travis:" ++ language; language; "travis:default"; "default" ]
          images in
      (imageName, err)
  end.

Definition dockerImageIDNameFromSelection (d : docker) (selection : string)
  : string * string :=
  match SplitN2 (TrimSpace d selection) ";" with
  | [id; name] => (id, name)
  | part :: _ => (part, part)
  | [] => (EmptyString, EmptyString)
  end.

Definition dockerImageIDFromName (d : docker) (imageName : string) : string :=
  let '(images, err) := ListImages d in
  match err with
  | Some _ => imageName
  | None =>
      let '(imageID, _, err) := findDockerImageByTag [imageName] images in
      match err with
      | Some _ => imageName
      | None => imageID
      end
  end.

(** ** The instance: [ID] and [Stop] *)

Definition dockerInstance_ID (i : dockerInstance) : result string :=
  match container i with
  | None => Ret "{unidentified}"
  | Some c =>
      match slice0 (ID c) 7 with
      | Ret short => Ret (short ++ ":" ++ imageName i)
      | Panic why => Panic why
      end
  end.

(** [Stop]: the argument of the deferred check-in is evaluated first; the
    check-in itself runs when the body has returned. *)
Definition Stop (d : docker) (i : dockerInstance) : M (option error) :=
  c <- deref (container i) ;;
  cfg <- deref (cConfig c) ;;
  let sets := CPUSet cfg in
  r <- (emit (StopContainerCall (ID c) 30) ;;;
        match StopContainer d with
        | Some err => ret (Some err)
        | None =>
            emit (RemoveContainerCall (ID c) true true) ;;;
            ret (RemoveContainer d)
        end) ;;
  checkinCPUSets sets ;;;
  ret r.

(** ** Provisioning: [Start] *)

(** Image resolution at the head of [Start]: [inl err] is the early return,
    [inr (imageID, imageName)] the two variables afterwards. *)
Definition resolveImage (d : docker) (startAttributes : StartAttributes)
  : M (error + string * string) :=
  p <- getProvider ;;
  if negb (String.eqb (attrImageName startAttributes) EmptyString)
  then ret (inr (EmptyString, attrImageName startAttributes))
  else
    let '(imageIDName, err) :=
      match imageSelector p with
      | TagSelector => Select d (attrLanguage startAttributes)
      | APISelector => apiSelect d
      end in
    match err with
    | Some e => emit (LogError "couldn't select image" e) ;;; ret (inl e)
    | None =>
        if ContainsByte imageIDName ";"
        then ret (inr (dockerImageIDNameFromSelection d imageIDName))
        else ret (inr (EmptyString, imageIDName))
    end.

(** What the [select] at the end of [Start] receives. *)
Inductive pollEvent :=
| Ready (c : Container)
| InspectFailed (err : error)
| CtxDone.

(** The polling goroutine, one answer of the daemon per iteration. The
    configuration is written into the answer before the error is looked
    at, as in the source. *)
Fixpoint pollUntilRunning (answers : list (option Container * option error))
  (id : string) (cfg : Config) (hc : HostConfig) : M pollEvent :=
  match answers with
  | [] => ret CtxDone
  | (answer, err) :: rest =>
      emit (InspectContainerCall id) ;;;
      c <- deref answer ;;
      let c := withConfigs c cfg hc in
      match err with
      | Some e => ret (InspectFailed e)
      | None =>
          if Running c then ret (Ready c)
          else pollUntilRunning rest id cfg hc
      end
  end.

Definition errorIsDeadline (e : error) : bool :=
  match e with
  | DeadlineExceeded => true
  | _ => false
  end.

(** The part of [Start] that follows the checkout: create, start, poll.
    [cpuSets] is the assignment that was checked out. The source builds
    the two configurations just before the checkout; they are values, and
    nothing reads them before the test [cpuSets != ""], so they are built
    here. *)
Definition createAndBoot (d : docker) (p : dockerProvider)
  (imageID imageName cpuSets : string)
  : M (option dockerInstance * option error) :=
  let dockerConfig :=
    mkConfig (runCmd p) imageID (int64_of_uint64 (runMemory p))
             ("testing-docker-" ++ newUUID d) EmptyString in
  let dockerHostConfig :=
    mkHostConfig (runPrivileged p) (int64_of_uint64 (runMemory p))
                 (int64_of_uint64 (runShm p)) (tmpFs p)
                 (Itoa (runCPUs p)) in
  let dockerConfig :=
    if negb (String.eqb cpuSets EmptyString)
    then mkConfig (Cmd dockerConfig) (Image dockerConfig)
                  (Memory dockerConfig) (Hostname dockerConfig) cpuSets
    else dockerConfig in
  let dockerHostConfig :=
    if negb (String.eqb cpuSets EmptyString)
    then mkHostConfig (Privileged dockerHostConfig)
           (hostMemory dockerHostConfig) (ShmSize dockerHostConfig)
           (Tmpfs dockerHostConfig) cpuSets
    else dockerHostConfig in
  emit (LogDebug "creating container") ;;;
  emit (CreateContainerCall dockerConfig dockerHostConfig) ;;;
  let '(created, err) := CreateContainer d in
  c <- deref created ;;
  let c := withConfigs c dockerConfig dockerHostConfig in
  match err with
  | Some err =>
      emit (LogError "couldn't create container" err) ;;;
      match created with
      | Some _ =>
          emit (RemoveContainerCall (ID c) true true) ;;;
          match RemoveContainer d with
          | Some err' =>
              emit (LogError
                      "couldn't remove container after create failure" err')
          | None => ret tt
          end
      | None => ret tt
      end ;;;
      ret (None, Some err)
  | None =>
      let startBooting := now d in
      emit (StartContainerCall (ID c)) ;;;
      match StartContainer d with
      | Some err => ret (None, Some err)
      | None =>
          ev <- pollUntilRunning (InspectPolls d) (ID c)
                  dockerConfig dockerHostConfig ;;
          match ev with
          | Ready c =>
              emit (MetricTimeSince "worker.vm.provider.docker.boot"
                                    startBooting) ;;;
              ret (Some (mkInstance (Some c) startBooting imageName
                                    (runNative p)), None)
          | InspectFailed err => ret (None, Some err)
          | CtxDone =>
              (if errorIsDeadline (ctxErr d)
               then emit (MetricMark "worker.vm.provider.docker.boot.timeout")
               else ret tt) ;;;
              ret (None, Some (ctxErr d))
          end
      end
  end.

Definition Start (d : docker) (startAttributes : StartAttributes)
  : M (option dockerInstance * option error) :=
  p <- getProvider ;;
  resolved <- resolveImage d startAttributes ;;
  match resolved with
  | inl err => ret (None, Some err)
  | inr (imageID, imageName) =>
      let imageID :=
        if String.eqb imageID EmptyString
        then dockerImageIDFromName d imageName else imageID in
      checkedOut <- checkoutCPUSets ;;
      match checkedOut with
      | (_, Some err) =>
          emit (LogError "couldn't checkout CPUSets" err) ;;;
          ret (None, Some err)
      | (cpuSets, None) =>
          emit (LogInfo "checked out" cpuSets) ;;;
          createAndBoot d p imageID imageName cpuSets
      end
  end.

(** ** The secure-shell transport *)

(** [sshConnection]: re-inspects the container (the instance's handle is
    overwritten with the answer, nil included), then dials. The second
    component is the error; [None] means a connection was returned. *)
Definition sshConnection (d : docker) (peer : sshPeer) (i : dockerInstance)
  : M (dockerInstance * option error) :=
  p <- getProvider ;;
  c <- deref (container i) ;;
  emit (InspectContainerCall (ID c)) ;;;
  let '(answer, err) := InspectContainer d in
  let i := mkInstance answer (startBooting i) (imageName i)
                      (instRunNative i) in
  match err with
  | Some e => ret (i, Some e)
  | None =>
      c <- deref answer ;;
      emit (DialCall (IPAddress c ++ ":22") "travis" (sshDialTimeout p)) ;;;
      ret (i, Dial peer)
  end.

Fixpoint lookupFile (name : string) (files : list (string * string))
  : option string :=
  match files with
  | [] => None
  | (n, data) :: rest =>
      if String.eqb n name then Some data else lookupFile name rest
  end.

(** Modelled from the spec: [ssh.Connection.UploadFile], of package [ssh],
    is not in this file. Its interface is
    [uploadFile(name, bytes) -> (alreadyExisted bool, error)]; a transport
    whose target file already exists reports so and does not overwrite the
    file; otherwise the file is written, unless the transfer fails. *)
Definition UploadFile (peer : sshPeer) (name data : string)
  : M (bool * option error) :=
  emit (UploadFileCall name data) ;;;
  fun m =>
    match lookupFile name (remoteFiles m) with
    | Some _ => Ret ((true, existedErr peer), m)
    | None =>
        match writeErr peer with
        | Some e => Ret ((false, Some e), m)
        | None =>
            Ret ((false, None),
                 mkMachine (provider m) ((name, data) :: remoteFiles m)
                           (events m))
        end
    end.

Definition uploadScriptSCP (d : docker) (peer : sshPeer) (i : dockerInstance)
  (script : string) : M (dockerInstance * option error) :=
  conn <- sshConnection d peer i ;;
  match conn with
  | (i, Some err) => ret (i, Some err)
  | (i, None) =>
      uploaded <- UploadFile peer "build.sh" script ;;
      let '(existed, err) := uploaded in
      let r :=
        if existed then Some ErrStaleVM
        else match err with
             | Some _ => Wrap err "couldn't upload build script"
             | None => None
             end in
      emit CloseCall ;;;
      ret (i, r)
  end.

Definition isNonNil (err : option error) : bool :=
  match err with
  | Some _ => true
  | None => false
  end.

Definition runScriptSSH (d : docker) (peer : sshPeer) (i : dockerInstance)
  : M (dockerInstance * (RunResult * option error)) :=
  p <- getProvider ;;
  conn <- sshConnection d peer i ;;
  match conn with
  | (i, Some err) =>
      ret (i, (mkRunResult false 0,
               Wrap (Some err) "couldn't connect to SSH server"))
  | (i, None) =>
      emit (RunCommandCall (Join (execCmd p) " ")) ;;;
      let '(exitStatus, err) := RunCommand peer in
      emit CloseCall ;;;
      ret (i, (mkRunResult (isNonNil err) exitStatus,
               Wrap err "error running script"))
  end.

(** ** Construction of the provider *)

(** [config.ProviderConfig], through the two methods the constructor
    calls. *)
Record ProviderConfig := mkProviderConfig {
  IsSet : string -> bool;
  Get : string -> string
}.

(** What the constructor takes from outside this file: the CPU counter
    behind [defaultDockerNumCPUer] ([None] when the variable is nil),
    [humanize.ParseBytes] and [time.ParseDuration], the helper [str2map]
    and the sentinel [ErrMissingEndpointConfig] of package [backend], the
    constructors of the SSH dialer, of URLs and of the Docker client (what
    matters here is whether they fail), the error value [strconv] builds
    for a function name and a rejected input, the quoting of the verb
    [%q], and the largest length [make] accepts. *)
Record platform := mkPlatform {
  NumCPU : option Z;
  ParseBytes : string -> option Z;
  ParseDuration : string -> Z + error;
  str2map : string -> list (string * string);
  ErrMissingEndpointConfig : error;
  NewDialerWithPassword : string -> option error;
  urlParse : string -> option error;
  NewClient : string -> option error;
  NewTLSClient : string -> string -> string -> string -> option error;
  strconvError : string -> string -> error;
  quote : string -> string;
  maxAlloc : Z
}.

(** [strconv.ParseBool]. *)
Definition ParseBool (str : string) : option bool :=
  if existsb (String.eqb str) ["1"; "t"; "T"; "true"; "TRUE"; "True"]
  then Some true
  else if existsb (String.eqb str) ["0"; "f"; "F"; "false"; "FALSE"; "False"]
       then Some false
       else None.

(** [strconv.ParseInt(s, 10, 64)]: an optional sign, then what
    [ParseUint] reads, within the range of [int64]. *)
Definition ParseInt (s : string) : option Z :=
  match s with
  | EmptyString => None
  | String c rest =>
      let neg := Ascii.eqb c "-" in
      let digits := if Ascii.eqb c "+" || neg then rest else s in
      match digits with
      | EmptyString => None
      | _ =>
          match parseDigits digits 0%N with
          | None => None
          | Some un =>
              let un := Z.of_N un in
              if negb neg && (2 ^ 63 <=? un) then None
              else if neg && (2 ^ 63 <? un) then None
                   else Some (if neg then - un else un)
          end
      end
  end.

(** [make([]bool, n)]. *)
Definition makeBools (pl : platform) (n : Z) : result (list bool) :=
  if (n <? 0) || (maxAlloc pl <? n)
  then Panic "makeslice: len out of range"
  else Ret (repeat false (Z.to_nat n)).

(** The client [buildDockerClient] asks for. *)
Inductive clientRequest :=
| PlainClient (endpoint : string)
| TLSClient (endpoint cert key ca : string).

Definition buildDockerClient (pl : platform) (cfg : ProviderConfig)
  : error + clientRequest :=
  if negb (IsSet cfg "ENDPOINT") && negb (IsSet cfg "HOST")
  then inl (ErrMissingEndpointConfig pl)
  else
    let endpoint := Get cfg "ENDPOINT" in
    let endpoint :=
      if String.eqb endpoint EmptyString then Get cfg "HOST" else endpoint in
    if IsSet cfg "CERT_PATH"
    then
      let path := Get cfg "CERT_PATH" in
      let ca := path ++ "/ca.pem" in
      let cert := path ++ "/cert.pem" in
      let key := path ++ "/key.pem" in
      match NewTLSClient pl endpoint cert key ca with
      | Some err => inl err
      | None => inr (TLSClient endpoint cert key ca)
      end
    else
      match NewClient pl endpoint with
      | Some err => inl err
      | None => inr (PlainClient endpoint)
      end.

Definition errInvalidSelector (pl : platform) (selectorType : string)
  : error :=
  Errorf ("invalid image selector type " ++ quote pl selectorType).

Definition buildDockerImageSelector (pl : platform) (selectorType : string)
  (cfg : ProviderConfig) : error + selector :=
  if String.eqb selectorType "tag" then inr TagSelector
  else if String.eqb selectorType "api"
       then match urlParse pl (Get cfg "IMAGE_SELECTOR_URL") with
            | Some err =>
                inl (Wrapped err "failed to parse image selector URL")
            | None => inr APISelector
            end
       else inl (errInvalidSelector pl selectorType).

Definition defaultExecCmd : string := "bash /home/travis/build.sh".

Definition defaultTmpfsMap : list (string * string) :=
  [("/run", "rw,nosuid,nodev,exec,noatime,size=65536k")].

Definition defaultDockerSSHDialTimeout : Z := 5 * 1000000000.

Definition newDockerProvider (pl : platform) (cfg : ProviderConfig)
  : result (error + dockerProvider) :=
  match buildDockerClient pl cfg with
  | inl err => Ret (inl err)
  | inr _ =>
  match (if IsSet cfg "NATIVE"
         then match ParseBool (Get cfg "NATIVE") with
              | Some v => inr v
              | None => inl (strconvError pl "ParseBool" (Get cfg "NATIVE"))
              end
         else inr false) with
  | inl err => Ret (inl err)
  | inr runNative =>
  let cpuSetSize := match NumCPU pl with Some n => n | None => 0 end in
  match (if IsSet cfg "CPU_SET_SIZE"
         then match ParseInt (Get cfg "CPU_SET_SIZE") with
              | Some v => inr v
              | None =>
                  inl (strconvError pl "ParseInt" (Get cfg "CPU_SET_SIZE"))
              end
         else inr cpuSetSize) with
  | inl err => Ret (inl err)
  | inr cpuSetSize =>
  let cpuSetSize := if cpuSetSize <? 2 then 2 else cpuSetSize in
  match (if IsSet cfg "PRIVILEGED"
         then match ParseBool (Get cfg "PRIVILEGED") with
              | Some v => inr v
              | None =>
                  inl (strconvError pl "ParseBool" (Get cfg "PRIVILEGED"))
              end
         else inr false) with
  | inl err => Ret (inl err)
  | inr privileged =>
  let cmd := if IsSet cfg "CMD" then Split (Get cfg "CMD") " "
             else ["/sbin/init"] in
  let execCmd := if IsSet cfg "EXEC_CMD" then Split (Get cfg "EXEC_CMD") " "
                 else Split defaultExecCmd " " in
  let tmpFs := str2map pl (Get cfg "TMPFS_MAP") in
  let tmpFs := match tmpFs with [] => defaultTmpfsMap | _ => tmpFs end in
  let memory :=
    if IsSet cfg "MEMORY"
    then match ParseBytes pl (Get cfg "MEMORY") with
         | Some parsedMemory => parsedMemory
         | None => 1024 * 1024 * 1024 * 4
         end
    else 1024 * 1024 * 1024 * 4 in
  let shm :=
    if IsSet cfg "SHM"
    then match ParseBytes pl (Get cfg "SHM") with
         | Some parsedShm => parsedShm
         | None => 1024 * 1024 * 64
         end
    else 1024 * 1024 * 64 in
  let cpus :=
    if IsSet cfg "CPUS"
    then match ParseUint (Get cfg "CPUS") with
         | Some parsedCPUs => parsedCPUs
         | None => 2
         end
    else 2 in
  match (if IsSet cfg "SSH_DIAL_TIMEOUT"
         then ParseDuration pl (Get cfg "SSH_DIAL_TIMEOUT")
         else inl defaultDockerSSHDialTimeout) with
  | inr err => Ret (inl err)
  | inl sshDialTimeout =>
  match NewDialerWithPassword pl "travis" with
  | Some err => Ret (inl (Wrapped err "couldn't create SSH dialer"))
  | None =>
  let imageSelectorType :=
    if IsSet cfg "IMAGE_SELECTOR_TYPE" then Get cfg "IMAGE_SELECTOR_TYPE"
    else "tag" in
  if negb (String.eqb imageSelectorType "tag")
     && negb (String.eqb imageSelectorType "api")
  then Ret (inl (errInvalidSelector pl imageSelectorType))
  else
  match buildDockerImageSelector pl imageSelectorType cfg with
  | inl err =>
      Ret (inl (Wrapped err "couldn't build docker image selector"))
  | inr imageSelector =>
  match makeBools pl cpuSetSize with
  | Panic why => Panic why
  | Ret flags =>
      Ret (inr (mkProvider sshDialTimeout privileged cmd memory shm
                           (int_of_uint64 cpus) runNative execCmd tmpFs
                           imageSelector flags))
  end end end end end end end end.

(** ** Vocabulary of the statements *)

(** The indices whose flag is false, in ascending order; [i] is the index
    of the head. *)
Fixpoint freeFrom (i : nat) (flags : list bool) : list nat :=
  match flags with
  | [] => []
  | checkedOut :: rest =>
      if checkedOut then freeFrom (S i) rest else i :: freeFrom (S i) rest
  end.

Definition freeIndices (flags : list bool) : list nat := freeFrom 0 flags.

(** The [n] lowest-numbered free indices. *)
Definition lowestFree (n : Z) (flags : list bool) : list nat :=
  firstn (Z.to_nat n) (freeIndices flags).

(** The pool after the indices [sel] have been flagged. *)
Definition flagged (sel : list nat) (flags : list bool) : list bool :=
  fold_left (fun a i => update a i true) sel flags.

(** The pool after the indices [sel] have been cleared. *)
Definition cleared (sel : list nat) (flags : list bool) : list bool :=
  fold_left (fun a i => update a i false) sel flags.


(** The pool of a machine state, and the state with another pool. *)
Definition pool (m : machine) : list bool := cpuSets (provider m).

Definition withPool (m : machine) (flags : list bool) : machine :=
  mkMachine (setCPUSets (provider m) flags) (remoteFiles m) (events m).

(** The number of free indices. *)
Definition freeCount (flags : list bool) : Z :=
  Z.of_nat (List.length (freeIndices flags)).

(** A Go slice has an [int] length. *)
Definition goSlice (flags : list bool) : Prop :=
  Z.of_nat (List.length flags) <= maxInt.

(** Whether some token of [sets] parses to the index [k]. *)
Definition named (sets : string) (k : nat) : bool :=
  existsb (fun tok => match ParseUint tok with
                      | Some cpu => cpu =? Z.of_nat k
                      | None => false
                      end)
          (Split sets ",").

(** Whether an image of the catalog carries [tag], as identifier or as one
    of its repository tags. *)
Definition carries (images : list APIImages) (tag : string) : Prop :=
  exists image, In image images /\
                (imgID image = tag \/ In tag (RepoTags image)).

(** The candidates of the tag selector for a language, in search order. *)
Definition candidates (language : string) : list string :=
  [ "travis:" ++ language; language; "travis:default"; "default" ].

(** What [Stop] returns: the error of the stop call, else the outcome of
    the removal. *)
Definition stopOutcome (d : docker) : option error :=
  match StopContainer d with
  | Some err => Some err
  | None => RemoveContainer d
  end.

(** The indices named by the tokens that parse, in order. *)
Fixpoint namedIndices (toks : list string) : list nat :=
  match toks with
  | [] => []
  | tok :: rest =>
      match ParseUint tok with
      | Some cpu => Z.to_nat cpu :: namedIndices rest
      | None => namedIndices rest
      end
  end.

(** States used to run the operations on concrete inputs: a provider with
    [n] CPUs per container and the pool [flags], in a machine with no
    remote file and an empty trace. *)
Definition providerOf (n : Z) (flags : list bool) : dockerProvider :=
  mkProvider 5 false ["/sbin/init"] 4294967296 67108864 n false
             ["bash"; "/home/travis/build.sh"] [] TagSelector flags.

Definition machineOf (n : Z) (flags : list bool) : machine :=
  mkMachine (providerOf n flags) [] [].

(** A daemon for concrete runs: the catalog [images], the answer
    [created] to the creation, the answers [polls] to the readiness poll,
    and the outcomes of stopping and removing. Everything else succeeds. *)
Definition dockerOf (images : list APIImages)
  (created : option Container * option error)
  (polls : list (option Container * option error))
  (stop remove : option error) : docker :=
  mkDocker (images, None) (EmptyString, None) created remove None polls
           (None, None) stop Canceled "0000" 0 (fun s => s).

(** A container as the daemon answers it, before [Start] writes the
    configuration into the handle. *)
Definition containerOf (id : string) (running : bool) : Container :=
  mkContainer id None None running "172.17.0.2" 0.

(** For runs of the secure-shell transport: a daemon whose inspection
    answers a running container, a peer that accepts the connection, whose
    [RunCommand] returns [run] and whose transfers fail with [write], an
    instance bound to the container [id], and a machine whose peer holds
    [files]. *)
Definition dockerSSH : docker :=
  mkDocker ([], None) (EmptyString, None) (None, None) None None []
           (Some (containerOf "0123456789abcdef" true), None) None
           Canceled "0000" 0 (fun s => s).

Definition peerOf (run : Z * option error) (write : option error) : sshPeer :=
  mkPeer None None write run.

Definition instanceOf (id image : string) : dockerInstance :=
  mkInstance (Some (containerOf id true)) 0 image false.

Definition machineWith (files : list (string * string)) : machine :=
  mkMachine (providerOf 2 [true; true]) files [].

(** The state with more events in its trace. *)
Definition addEvents (m : machine) (es : list event) : machine :=
  mkMachine (provider m) (remoteFiles m) (events m ++ es)%list.

(** An entry of the trace that is only a line of the log. *)
Definition isLog (e : event) : Prop :=
  match e with
  | LogError _ _ | LogInfo _ _ | LogDebug _ => True
  | _ => False
  end.

(** The metric [Start] marks when the deadline of its context passes. *)
Definition bootTimeout : event :=
  MetricMark "worker.vm.provider.docker.boot.timeout".

(** A daemon that answers [answer] to the inspection of [sshConnection]. *)
Definition dockerInspecting (answer : option Container * option error)
  : docker :=
  mkDocker ([], None) (EmptyString, None) (None, None) None None []
           answer None Canceled "0000" 0 (fun s => s).

(** A configuration given by its settings, and a platform with [ncpu]
    CPUs whose collaborators all succeed, for concrete runs of the
    constructor. *)
Definition configOf (settings : list (string * string)) : ProviderConfig :=
  mkProviderConfig
    (fun key => match lookupFile key settings with
                | Some _ => true
                | None => false
                end)
    (fun key => match lookupFile key settings with
                | Some v => v
                | None => EmptyString
                end).

Definition platformOf (ncpu : option Z) : platform :=
  mkPlatform ncpu (fun _ => None) (fun _ => inl 1000000000) (fun _ => [])
             (Errorf "missing endpoint config") (fun _ => None)
             (fun _ => None) (fun _ => None) (fun _ _ _ _ => None)
             (fun fn s => Errorf (fn ++ ": " ++ s)) (fun s => s) (2 ^ 48).

(** Two configurations that agree on every key outside [keys]. *)
Definition agreeOutside (keys : list string) (c1 c2 : ProviderConfig)
  : Prop :=
  forall key, ~ In key keys ->
              IsSet c1 key = IsSet c2 key /\ Get c1 key = Get c2 key.

(** The provider [p] with the three quotas of [q]. *)
Definition withQuotas (p q : dockerProvider) : dockerProvider :=
  mkProvider (sshDialTimeout p) (runPrivileged p) (runCmd p) (runMemory q)
    (runShm q) (runCPUs q) (runNative p) (execCmd p) (tmpFs p)
    (imageSelector p) (cpuSets p).

(** The states the pool operations lead to from [m0], with the
    assignments that are checked out and not yet checked in: a checkout
    that succeeds adds its assignment, one that fails adds nothing, and a
    check-in takes one outstanding assignment back. *)
Inductive reachable (m0 : machine) : machine -> list string -> Prop :=
| reach_start : reachable m0 m0 []
| reach_checkout (m m' : machine) (out : list string) (s : string) :
    reachable m0 m out ->
    checkoutCPUSets m = Ret ((s, None), m') ->
    reachable m0 m' (s :: out)
| reach_refused (m m' : machine) (out : list string) (s : string)
    (e : error) :
    reachable m0 m out ->
    checkoutCPUSets m = Ret ((s, Some e), m') ->
    reachable m0 m' out
| reach_checkin (m m' : machine) (out1 out2 : list string) (s : string) :
    reachable m0 m (out1 ++ s :: out2)%list ->
    checkinCPUSets s m = Ret (tt, m') ->
    reachable m0 m' (out1 ++ out2)%list.

(** The assignment string of a list of indices. *)
Definition printed (sel : list nat) : string :=
  Join (map Itoa (map Z.of_nat sel)) ",".

(** What a sequence of pool operations from [m0] keeps true of a state
    [m] and of the index lists [sels] of the outstanding assignments. *)
Definition poolInv (m0 m : machine) (sels : list (list nat)) : Prop :=
  provider m = setCPUSets (provider m0) (pool m) /\
  List.length (pool m) = List.length (pool m0) /\
  NoDup (concat sels) /\
  (forall k, In k (concat sels) -> nth_error (pool m) k = Some true) /\
  (forall sel, In sel sels ->
               Z.of_nat (List.length sel) = runCPUs (provider m0)) /\
  freeCount (pool m) + Z.of_nat (List.length (concat sels))
  = Z.of_nat (List.length (pool m0)).

(** A container as a later inspection reports it: with its own [Config],
    whose [CPUSet] is what the daemon says, not what [Start] wrote. *)
Definition reportedContainer (id cpuSet : string) : Container :=
  mkContainer id
    (Some (mkConfig ["/sbin/init"] "travis:ruby" 4294967296
                    "testing-docker-0000" cpuSet))
    (Some (mkHostConfig false 4294967296 67108864 [] "1,2"))
    true "172.17.0.2" 0.

(** The same report without a [Config]. *)
Definition bareContainer (id : string) : Container :=
  mkContainer id None None true "172.17.0.2" 0.

(** * Properties *)

(** ** Slices *)

Section Slices.

Lemma update_length (a : list bool) (i : nat) (v : bool) :
  List.length (update a i v) = List.length a.
Proof.
  revert i; induction a as [|x a IH]; intros [|i]; simpl; auto.
Qed.

Lemma update_nth_same (a : list bool) (i : nat) (v : bool) :
  (i < List.length a)%nat -> nth_error (update a i v) i = Some v.
Proof.
  revert i; induction a as [|x a IH]; intros [|i] H; simpl in *;
    try lia; auto.
  apply IH; lia.
Qed.

Lemma update_nth_other (a : list bool) (i j : nat) (v : bool) :
  i <> j -> nth_error (update a i v) j = nth_error a j.
Proof.
  revert i j; induction a as [|x a IH]; intros [|i] [|j] H; simpl;
    try reflexivity; try congruence.
  apply IH; congruence.
Qed.

Lemma store_Some (a : list bool) (i : nat) (v : bool) :
  (i < List.length a)%nat ->
  store a (Z.of_nat i) v = Some (update a i v).
Proof.
  intros H. unfold store.
  replace (0 <=? Z.of_nat i) with true by (symmetry; apply Z.leb_le; lia).
  replace (Z.of_nat i <? Z.of_nat (List.length a)) with true
    by (symmetry; apply Z.ltb_lt; lia).
  simpl. now rewrite Nat2Z.id.
Qed.

Lemma store_None (a : list bool) (i : Z) (v : bool) :
  i < 0 \/ Z.of_nat (List.length a) <= i -> store a i v = None.
Proof.
  intros H. unfold store.
  destruct (0 <=? i) eqn:E1; simpl; auto.
  destruct (i <? Z.of_nat (List.length a)) eqn:E2; auto.
  apply Z.leb_le in E1. apply Z.ltb_lt in E2. lia.
Qed.

(** Two slices of the same length with the same elements are equal. *)
Lemma nth_error_ext (a b : list bool) :
  (forall i, nth_error a i = nth_error b i) -> a = b.
Proof.
  revert b; induction a as [|x a IH]; intros [|y b] H.
  - reflexivity.
  - specialize (H O); discriminate.
  - specialize (H O); discriminate.
  - f_equal.
    + specialize (H O); simpl in H; congruence.
    + apply IH. intros i. exact (H (S i)).
Qed.

End Slices.

(** ** The free indices of a pool *)

Section FreeIndices.

Lemma freeFrom_In (flags : list bool) (i k : nat) :
  In k (freeFrom i flags) <->
  (i <= k)%nat /\ nth_error flags (k - i) = Some false.
Proof.
  revert i; induction flags as [|b flags IH]; intros i; simpl.
  - split; [tauto|]. intros [_ H]. destruct (k - i)%nat; discriminate.
  - destruct b; simpl; rewrite ?IH.
    + split.
      * intros [H1 H2]. split; [lia|].
        replace (k - i)%nat with (S (k - S i)) by lia. exact H2.
      * intros [H1 H2]. destruct (k - i)%nat as [|j] eqn:E;
          [discriminate|].
        split; [lia|]. replace (k - S i)%nat with j by lia. exact H2.
    + split.
      * intros [->|[H1 H2]].
        -- split; [lia|]. now rewrite Nat.sub_diag.
        -- split; [lia|].
           replace (k - i)%nat with (S (k - S i)) by lia. exact H2.
      * intros [H1 H2]. destruct (k - i)%nat as [|j] eqn:E.
        -- left; lia.
        -- right. split; [lia|].
           replace (k - S i)%nat with j by lia. exact H2.
Qed.

(** An index is free exactly when its flag is false. *)
Lemma freeIndices_In (flags : list bool) (k : nat) :
  In k (freeIndices flags) <-> nth_error flags k = Some false.
Proof.
  unfold freeIndices. rewrite freeFrom_In, Nat.sub_0_r.
  split; [tauto|]. split; [lia|assumption].
Qed.

Lemma freeFrom_lower (flags : list bool) (i k : nat) :
  In k (freeFrom i flags) -> (i <= k)%nat.
Proof. intros H. now apply freeFrom_In in H. Qed.

(** The free indices are listed in strictly ascending order. *)
Lemma freeFrom_sorted (flags : list bool) (i : nat) :
  StronglySorted lt (freeFrom i flags).
Proof.
  revert i; induction flags as [|b flags IH]; intros i; simpl.
  - constructor.
  - destruct b; [apply IH|].
    constructor; [apply IH|].
    apply Forall_forall. intros k Hk.
    apply freeFrom_lower in Hk. lia.
Qed.

Lemma freeFrom_bound (flags : list bool) (i k : nat) :
  In k (freeFrom i flags) -> (k < i + List.length flags)%nat.
Proof.
  intros H. apply freeFrom_In in H. destruct H as [H1 H2].
  assert (k - i < List.length flags)%nat
    by (apply nth_error_Some; congruence).
  lia.
Qed.

(** The scan collects, after what it already holds, the lowest free
    indices still missing. *)
Lemma scanFree_spec (n : Z) (flags : list bool) (i : nat) (acc : list Z) :
  Z.of_nat (List.length acc) < n ->
  scanFree n flags (Z.of_nat i) acc =
  (acc ++ map Z.of_nat
            (firstn (Z.to_nat n - List.length acc) (freeFrom i flags)))%list.
Proof.
  revert i acc; induction flags as [|b flags IH]; intros i acc Hlt; simpl.
  - now rewrite firstn_nil, app_nil_r.
  - destruct b; simpl.
    + destruct (Z.eqb_spec (Z.of_nat (List.length acc)) n); [lia|].
      replace (Z.of_nat i + 1) with (Z.of_nat (S i)) by lia.
      now apply IH.
    + rewrite length_app; simpl.
      destruct (Z.eqb_spec (Z.of_nat (List.length acc + 1)) n) as [E|E].
      * replace (Z.to_nat n - List.length acc)%nat with 1%nat by lia.
        reflexivity.
      * replace (Z.of_nat i + 1) with (Z.of_nat (S i)) by lia.
        rewrite IH by (rewrite length_app; simpl; lia).
        rewrite length_app; simpl.
        replace (Z.to_nat n - List.length acc)%nat
          with (S (Z.to_nat n - (List.length acc + 1))) by lia.
        simpl. now rewrite <- app_assoc.
Qed.

Lemma scanFree_lowest (n : Z) (flags : list bool) :
  1 <= n ->
  scanFree n flags 0 [] = map Z.of_nat (lowestFree n flags).
Proof.
  intros H. change 0 with (Z.of_nat 0).
  rewrite scanFree_spec by (simpl; lia).
  simpl. now rewrite Nat.sub_0_r.
Qed.

Lemma lowestFree_length (n : Z) (flags : list bool) :
  List.length (lowestFree n flags) =
  Nat.min (Z.to_nat n) (List.length (freeIndices flags)).
Proof. apply length_firstn. Qed.

Lemma lowestFree_In (n : Z) (flags : list bool) (k : nat) :
  In k (lowestFree n flags) -> nth_error flags k = Some false.
Proof.
  intros H. apply freeIndices_In.
  unfold lowestFree in H.
  rewrite <- (firstn_skipn (Z.to_nat n) (freeIndices flags)).
  apply in_or_app; now left.
Qed.

Lemma lowestFree_bound (n : Z) (flags : list bool) (k : nat) :
  In k (lowestFree n flags) -> (k < List.length flags)%nat.
Proof.
  intros H. apply lowestFree_In in H.
  apply nth_error_Some; congruence.
Qed.

End FreeIndices.

(** ** Flagging and clearing sets of indices *)

Section Assign.

Variable v : bool.

Let assignAll (sel : list nat) (flags : list bool) : list bool :=
  fold_left (fun a i => update a i v) sel flags.

Lemma assignAll_length (sel : list nat) (flags : list bool) :
  List.length (assignAll sel flags) = List.length flags.
Proof.
  revert flags; induction sel as [|i sel IH]; intros flags; simpl; auto.
  unfold assignAll in *; simpl. now rewrite IH, update_length.
Qed.

Lemma assignAll_nth (sel : list nat) (flags : list bool) (k : nat) :
  (k < List.length flags)%nat ->
  nth_error (assignAll sel flags) k =
  if existsb (Nat.eqb k) sel then Some v else nth_error flags k.
Proof.
  revert flags; induction sel as [|i sel IH]; intros flags Hk; simpl; auto.
  unfold assignAll in *; simpl.
  rewrite IH by now rewrite update_length.
  destruct (Nat.eqb_spec k i) as [->|Hne]; simpl.
  - rewrite update_nth_same by assumption.
    now destruct (existsb _ sel).
  - rewrite update_nth_other by congruence. reflexivity.
Qed.

Lemma assignAll_nth_out (sel : list nat) (flags : list bool) (k : nat) :
  (List.length flags <= k)%nat -> nth_error (assignAll sel flags) k = None.
Proof.
  intros H. apply nth_error_None. now rewrite assignAll_length.
Qed.

End Assign.

Lemma flagged_length (sel : list nat) (flags : list bool) :
  List.length (flagged sel flags) = List.length flags.
Proof. apply assignAll_length. Qed.

Lemma flagged_nth (sel : list nat) (flags : list bool) (k : nat) :
  (k < List.length flags)%nat ->
  nth_error (flagged sel flags) k =
  if existsb (Nat.eqb k) sel then Some true else nth_error flags k.
Proof. apply assignAll_nth. Qed.

Lemma cleared_length (sel : list nat) (flags : list bool) :
  List.length (cleared sel flags) = List.length flags.
Proof. apply assignAll_length. Qed.

Lemma cleared_nth (sel : list nat) (flags : list bool) (k : nat) :
  (k < List.length flags)%nat ->
  nth_error (cleared sel flags) k =
  if existsb (Nat.eqb k) sel then Some false else nth_error flags k.
Proof. apply assignAll_nth. Qed.

Lemma existsb_eqb_In (k : nat) (sel : list nat) :
  existsb (Nat.eqb k) sel = true <-> In k sel.
Proof.
  rewrite existsb_exists. split.
  - intros [x [Hx E]]. apply Nat.eqb_eq in E. now subst.
  - intros H. exists k. split; [assumption|apply Nat.eqb_refl].
Qed.

(** The marking loop of [checkoutCPUSets] on indices of the pool. *)
Lemma markAll_flagged (sel : list nat) (flags : list bool) :
  (forall k, In k sel -> (k < List.length flags)%nat) ->
  markAll flags (map Z.of_nat sel) = Some (flagged sel flags).
Proof.
  revert flags; induction sel as [|i sel IH]; intros flags H; simpl; auto.
  rewrite store_Some by (apply H; now left).
  apply IH. intros k Hk. rewrite update_length. apply H; now right.
Qed.

(** Clearing the indices that were just flagged, all of them free before,
    gives the pool back. *)
Lemma cleared_flagged (sel : list nat) (flags : list bool) :
  (forall k, In k sel -> nth_error flags k = Some false) ->
  cleared sel (flagged sel flags) = flags.
Proof.
  intros Hfree. apply nth_error_ext. intros k.
  destruct (Nat.lt_ge_cases k (List.length flags)) as [Hk|Hk].
  - rewrite cleared_nth by now rewrite flagged_length.
    rewrite flagged_nth by assumption.
    destruct (existsb (Nat.eqb k) sel) eqn:E; [|reflexivity].
    symmetry. apply Hfree. now apply existsb_eqb_In.
  - unfold cleared. rewrite assignAll_nth_out
      by now rewrite flagged_length.
    symmetry. now apply nth_error_None.
Qed.

(** ** Decimal strings *)

Section Decimal.

Lemma digitVal_digitChar (d : N) :
  (d < 10)%N -> digitVal (digitChar d) = Some d.
Proof.
  intros H. unfold digitVal, digitChar.
  rewrite N_ascii_embedding by lia.
  replace ((48 <=? 48 + d) && (48 + d <=? 57))%N with true.
  - f_equal. lia.
  - symmetry. apply andb_true_intro. split; apply N.leb_le; lia.
Qed.

Lemma digitChar_not_comma (d : N) :
  (d < 10)%N -> Ascii.eqb (digitChar d) "," = false.
Proof.
  intros H. apply Ascii.eqb_neq. intros E.
  apply (f_equal N_of_ascii) in E. unfold digitChar in E.
  rewrite N_ascii_embedding in E by lia.
  change (N_of_ascii ",") with 44%N in E. lia.
Qed.

(** Parsing what was formatted continues from the number formatted. *)
Lemma parseDigits_formatBits (fuel : nat) (n : N) (acc : string) :
  (n < 10 ^ N.of_nat fuel)%N ->
  parseDigits (formatBits fuel n acc) 0 = parseDigits acc n.
Proof.
  revert n acc; induction fuel as [|fuel IH]; intros n acc Hn.
  - simpl in *. replace n with 0%N by lia. reflexivity.
  - cbn [formatBits].
    assert (Hd : (n mod 10 < 10)%N) by (apply N.mod_lt; lia).
    assert (Hdm : n = (10 * (n / 10) + n mod 10)%N)
      by (apply N.div_mod; lia).
    destruct (N.eqb_spec (n / 10) 0) as [E|E].
    + cbn [parseDigits]. rewrite digitVal_digitChar by assumption.
      f_equal. lia.
    + rewrite IH.
      * cbn [parseDigits]. rewrite digitVal_digitChar by assumption.
        f_equal. lia.
      * rewrite Nat2N.inj_succ, N.pow_succ_r' in Hn.
        apply N.Div0.div_lt_upper_bound. lia.
Qed.

Lemma formatBits_nonempty (fuel : nat) (n : N) (acc : string) :
  acc <> EmptyString -> formatBits fuel n acc <> EmptyString.
Proof.
  revert n acc; induction fuel as [|fuel IH]; intros n acc H; simpl; auto.
  destruct (n / 10 =? 0)%N; [discriminate|]. apply IH. discriminate.
Qed.

Lemma formatBits_no_comma (fuel : nat) (n : N) (acc : string) :
  ContainsByte acc "," = false ->
  ContainsByte (formatBits fuel n acc) "," = false.
Proof.
  revert n acc; induction fuel as [|fuel IH]; intros n acc H; simpl; auto.
  assert (Hc : ContainsByte (String (digitChar (n mod 10)) acc) "," = false).
  { simpl. rewrite digitChar_not_comma by (apply N.mod_lt; lia).
    exact H. }
  destruct (n / 10 =? 0)%N; [exact Hc|]. now apply IH.
Qed.

Lemma fuel_enough (n : N) :
  (n < 10 ^ N.of_nat (S (N.to_nat (N.log2 n))))%N.
Proof.
  rewrite Nat2N.inj_succ, N2Nat.id.
  apply N.lt_le_trans with (2 ^ N.succ (N.log2 n))%N.
  - destruct n as [|p]; [reflexivity|].
    apply N.log2_spec. reflexivity.
  - apply N.pow_le_mono_l. lia.
Qed.

Lemma formatUint_nonempty (n : N) : formatUint n <> EmptyString.
Proof.
  unfold formatUint. cbn [formatBits].
  destruct (n / 10 =? 0)%N; [discriminate|].
  apply formatBits_nonempty. discriminate.
Qed.

(** [ParseUint] reads back what [Itoa] prints, for every index a slice
    can have. *)
Lemma ParseUint_Itoa (i : Z) :
  0 <= i <= maxUint64 -> ParseUint (Itoa i) = Some i.
Proof.
  intros H. unfold Itoa.
  destruct (Z.ltb_spec i 0); [lia|].
  unfold ParseUint.
  destruct (formatUint (Z.to_N i)) eqn:E.
  - now apply formatUint_nonempty in E.
  - rewrite <- E. unfold formatUint.
    rewrite parseDigits_formatBits by apply fuel_enough.
    cbn [parseDigits]. rewrite Z2N.id by lia.
    destruct (Z.leb_spec i maxUint64); [reflexivity|lia].
Qed.

Lemma Itoa_no_comma (i : Z) :
  0 <= i -> ContainsByte (Itoa i) "," = false.
Proof.
  intros H. unfold Itoa. destruct (Z.ltb_spec i 0); [lia|].
  unfold formatUint. now apply formatBits_no_comma.
Qed.

End Decimal.

(** ** [Split] and [Join] *)

Section SplitJoin.

Variable sep : ascii.

Lemma Split_nonempty (s : string) : Split s sep <> [].
Proof.
  destruct s as [|c s]; simpl; [discriminate|].
  destruct (Ascii.eqb c sep); [discriminate|].
  destruct (Split s sep); discriminate.
Qed.

Lemma Split_single (e : string) :
  ContainsByte e sep = false -> Split e sep = [e].
Proof.
  induction e as [|c e IH]; simpl; auto.
  intros H. apply orb_false_iff in H. destruct H as [H1 H2].
  rewrite H1, IH by assumption. reflexivity.
Qed.

Lemma Split_app (e rest : string) :
  ContainsByte e sep = false ->
  Split (e ++ String sep rest) sep = e :: Split rest sep.
Proof.
  induction e as [|c e IH]; simpl.
  - intros _. now rewrite Ascii.eqb_refl.
  - intros H. apply orb_false_iff in H. destruct H as [H1 H2].
    rewrite H1, IH by assumption. reflexivity.
Qed.

(** Splitting a joined list gives the list back, when no element holds
    the separator. An empty list joins to the empty string, which splits
    into one empty token. *)
Lemma Split_Join (elems : list string) :
  elems <> [] ->
  (forall e, In e elems -> ContainsByte e sep = false) ->
  Split (Join elems (String sep EmptyString)) sep = elems.
Proof.
  induction elems as [|e elems IH]; [congruence|].
  intros _ H. destruct elems as [|e' elems].
  - simpl. apply Split_single. apply H. now left.
  - change (Join (e :: e' :: elems) (String sep EmptyString))
      with (e ++ String sep (Join (e' :: elems) (String sep EmptyString))).
    rewrite Split_app by (apply H; now left).
    f_equal. apply IH; [discriminate|].
    intros x Hx. apply H. now right.
Qed.

End SplitJoin.

(** ** Checkout *)

Section Checkout.

Variable m : machine.

Let n := runCPUs (provider m).
Let flags := pool m.

Lemma withPool_same : withPool m (pool m) = m.
Proof. destruct m as [[] ? ?]. reflexivity. Qed.

(** Fewer than [n] free indices: the error, and nothing written. *)
Lemma checkout_exhausted :
  freeCount flags < n ->
  checkoutCPUSets m = Ret ((EmptyString, Some errNotEnough), m).
Proof.
  intros H. unfold checkoutCPUSets, bind, getProvider.
  fold n. change (cpuSets (provider m)) with flags.
  assert (Hn : 1 <= n) by (unfold freeCount in H; lia).
  rewrite scanFree_lowest by assumption.
  rewrite length_map, lowestFree_length.
  unfold freeCount in H.
  destruct (Z.eqb_spec
              (Z.of_nat (Nat.min (Z.to_nat n)
                                 (List.length (freeIndices flags)))) n);
    [lia|reflexivity].
Qed.

(** At least [n] free indices, [n] positive: the [n] lowest are taken. *)
Lemma checkout_lowest :
  1 <= n -> n <= freeCount flags ->
  checkoutCPUSets m =
  Ret ((Join (map Itoa (map Z.of_nat (lowestFree n flags))) ",", None),
       withPool m (flagged (lowestFree n flags) flags)).
Proof.
  intros Hn H. unfold checkoutCPUSets, bind, getProvider.
  fold n. change (cpuSets (provider m)) with flags.
  rewrite scanFree_lowest by assumption.
  rewrite length_map, lowestFree_length.
  unfold freeCount in H.
  destruct (Z.eqb_spec
              (Z.of_nat (Nat.min (Z.to_nat n)
                                 (List.length (freeIndices flags)))) n);
    [|lia].
  simpl. rewrite markAll_flagged by apply lowestFree_bound.
  reflexivity.
Qed.

(** Every successful checkout, whatever [n]: the assignment is the list of
    the [n] lowest free indices, and exactly these are flagged. *)
Lemma checkout_success (s : string) (m' : machine) :
  checkoutCPUSets m = Ret ((s, None), m') ->
  0 <= n /\
  Z.of_nat (List.length (lowestFree n flags)) = n /\
  s = Join (map Itoa (map Z.of_nat (lowestFree n flags))) "," /\
  m' = withPool m (flagged (lowestFree n flags) flags).
Proof.
  destruct (Z.lt_ge_cases (freeCount flags) n) as [Hlt|Hge].
  - rewrite checkout_exhausted by assumption. discriminate.
  - destruct (Z.lt_ge_cases n 1) as [Hn|Hn].
    + unfold checkoutCPUSets, bind, getProvider.
      fold n. change (cpuSets (provider m)) with flags.
      destruct (Z.eqb_spec (Z.of_nat (List.length (scanFree n flags 0 [])))
                           n) as [E|E]; simpl; [|discriminate].
      assert (n = 0) by lia.
      assert (Hsel : scanFree n flags 0 [] = []).
      { apply length_zero_iff_nil. lia. }
      rewrite Hsel. simpl. unfold ret, putCPUSets.
      intros Heq. injection Heq as <- <-.
      replace (lowestFree n flags) with (@nil nat)
        by (unfold lowestFree; now replace n with 0).
      repeat split; try (simpl; lia); reflexivity.
    + rewrite checkout_lowest by assumption.
      intros Heq. injection Heq as <- <-.
      repeat split; try lia.
      rewrite lowestFree_length. unfold freeCount in Hge. lia.
Qed.

End Checkout.

(** ** Checkin *)

Section Checkin.

Lemma int_of_uint64_small (v : Z) : v <= maxInt -> int_of_uint64 v = v.
Proof.
  intros H. unfold int_of_uint64.
  destruct (Z.leb_spec v maxInt); [reflexivity|lia].
Qed.

Lemma ParseUint_nonneg (tok : string) (cpu : Z) :
  ParseUint tok = Some cpu -> 0 <= cpu.
Proof.
  unfold ParseUint. destruct tok; [discriminate|].
  destruct (parseDigits _ _); [|discriminate].
  destruct (Z.leb_spec (Z.of_N n) maxUint64); [|discriminate].
  intros E. injection E as <-. lia.
Qed.

(** Tokens that parse and name indices of the pool are cleared; the
    others are skipped. *)
Lemma checkinTokens_cleared (toks : list string) (flags : list bool) :
  goSlice flags ->
  (forall tok cpu, In tok toks -> ParseUint tok = Some cpu ->
                   cpu < Z.of_nat (List.length flags)) ->
  checkinTokens flags toks = Some (cleared (namedIndices toks) flags).
Proof.
  revert flags; induction toks as [|tok toks IH]; intros flags Hs H; simpl.
  - reflexivity.
  - destruct (ParseUint tok) as [cpu|] eqn:E.
    + assert (Hlt : cpu < Z.of_nat (List.length flags))
        by (apply (H tok); [now left|assumption]).
      assert (H0 : 0 <= cpu) by (eapply ParseUint_nonneg; eassumption).
      unfold goSlice in Hs.
      rewrite int_of_uint64_small by lia.
      rewrite <- (Z2Nat.id cpu) at 1 by assumption.
      rewrite store_Some by lia.
      unfold cleared; simpl. apply IH.
      * unfold goSlice. now rewrite update_length.
      * intros t c Ht Hc. rewrite update_length.
        apply (H t); [now right|assumption].
    + apply IH; [assumption|].
      intros t c Ht Hc. apply (H t); [now right|assumption].
Qed.

Lemma namedIndices_named (sets : string) (k : nat) :
  existsb (Nat.eqb k) (namedIndices (Split sets ",")) = named sets k.
Proof.
  unfold named. induction (Split sets ",") as [|tok toks IH]; simpl; auto.
  destruct (ParseUint tok) as [cpu|] eqn:E; simpl; [|exact IH].
  rewrite IH. f_equal.
  apply ParseUint_nonneg in E.
  destruct (Z.eqb_spec cpu (Z.of_nat k)) as [He|Hne].
  - subst cpu. rewrite Nat2Z.id. apply Nat.eqb_refl.
  - apply Nat.eqb_neq. intros ->. apply Hne. now rewrite Z2Nat.id.
Qed.

(** A token that parses and names an index outside the pool stops the
    loop with a panic, whatever follows. *)
Lemma checkinTokens_out_of_range (tok : string) (cpu : Z)
  (toks : list string) (flags : list bool) :
  ParseUint tok = Some cpu ->
  Z.of_nat (List.length flags) <= cpu <= maxInt ->
  checkinTokens flags (tok :: toks) = None.
Proof.
  intros E H. simpl. rewrite E.
  rewrite int_of_uint64_small by lia.
  rewrite store_None by lia. reflexivity.
Qed.

(** The tokens of an assignment printed by the checkout. *)
Lemma namedIndices_Itoa (sel : list nat) :
  (forall k, In k sel -> Z.of_nat k <= maxUint64) ->
  namedIndices (map Itoa (map Z.of_nat sel)) = sel.
Proof.
  induction sel as [|k sel IH]; intros H; simpl; auto.
  rewrite ParseUint_Itoa by (split; [lia|apply H; now left]).
  rewrite Nat2Z.id. f_equal. apply IH.
  intros j Hj. apply H. now right.
Qed.

(** Checking in an assignment printed by the checkout clears exactly its
    indices. *)
Lemma checkinTokens_assignment (sel : list nat) (flags : list bool) :
  goSlice flags ->
  (forall k, In k sel -> (k < List.length flags)%nat) ->
  checkinTokens flags (Split (Join (map Itoa (map Z.of_nat sel)) ",") ",")
  = Some (cleared sel flags).
Proof.
  intros Hs H. unfold goSlice in Hs.
  assert (Hmax : maxInt <= maxUint64) by (vm_compute; discriminate).
  destruct sel as [|k sel].
  - reflexivity.
  - rewrite Split_Join.
    + rewrite checkinTokens_cleared; [|assumption|].
      * rewrite namedIndices_Itoa; [reflexivity|].
        intros j Hj. apply H in Hj. lia.
      * intros tok cpu Ht Hc.
        rewrite map_map in Ht. apply in_map_iff in Ht.
        destruct Ht as [j [<- Hj]].
        apply H in Hj.
        rewrite ParseUint_Itoa in Hc by lia.
        injection Hc as <-. lia.
    + discriminate.
    + intros e He. rewrite map_map in He. apply in_map_iff in He.
      destruct He as [j [<- Hj]]. apply Itoa_no_comma. lia.
Qed.

End Checkin.

(** ** The pool operations on machine states *)

Lemma withPool_withPool (m : machine) (f g : list bool) :
  withPool (withPool m f) g = withPool m g.
Proof. reflexivity. Qed.

Lemma pool_withPool (m : machine) (f : list bool) : pool (withPool m f) = f.
Proof. reflexivity. Qed.

Lemma checkin_run (sets : string) (m : machine) (flags' : list bool) :
  checkinTokens (pool m) (Split sets ",") = Some flags' ->
  checkinCPUSets sets m = Ret (tt, withPool m flags').
Proof.
  intros H. unfold checkinCPUSets, bind, getProvider.
  change (cpuSets (provider m)) with (pool m). now rewrite H.
Qed.

Lemma checkin_panics (sets : string) (m : machine) :
  checkinTokens (pool m) (Split sets ",") = None ->
  checkinCPUSets sets m = Panic "index out of range".
Proof.
  intros H. unfold checkinCPUSets, bind, getProvider.
  change (cpuSets (provider m)) with (pool m). now rewrite H.
Qed.

(** A first token that parses and names no index of the pool: panic. *)
Lemma checkin_out_of_range_panics (sets tok : string) (rest : list string)
  (cpu : Z) (m : machine) :
  Split sets "," = tok :: rest ->
  ParseUint tok = Some cpu ->
  Z.of_nat (List.length (pool m)) <= cpu <= maxInt ->
  checkinCPUSets sets m = Panic "index out of range".
Proof.
  intros Hs Hp Hr. apply checkin_panics. rewrite Hs.
  eapply checkinTokens_out_of_range; eassumption.
Qed.

(** Releasing the empty assignment changes nothing. *)
Lemma checkin_empty (m : machine) :
  checkinCPUSets EmptyString m = Ret (tt, m).
Proof.
  rewrite (checkin_run EmptyString m (pool m)) by reflexivity.
  now rewrite withPool_same.
Qed.

(** First fit, for a positive [n]: the assignment lists the [n] lowest
    free indices in ascending order, exactly their flags are set, and the
    pool keeps its length. *)
Lemma checkout_first_fit (m : machine) :
  1 <= runCPUs (provider m) ->
  runCPUs (provider m) <= freeCount (pool m) ->
  exists sel flags',
    checkoutCPUSets m =
      Ret ((Join (map Itoa (map Z.of_nat sel)) ",", None),
           withPool m flags') /\
    sel = lowestFree (runCPUs (provider m)) (pool m) /\
    Z.of_nat (List.length sel) = runCPUs (provider m) /\
    StronglySorted lt sel /\
    (forall k, In k sel -> nth_error (pool m) k = Some false) /\
    List.length flags' = List.length (pool m) /\
    (forall k, In k sel -> nth_error flags' k = Some true) /\
    (forall k, ~ In k sel -> nth_error flags' k = nth_error (pool m) k).
Proof.
  intros Hn Hfree.
  exists (lowestFree (runCPUs (provider m)) (pool m)),
         (flagged (lowestFree (runCPUs (provider m)) (pool m)) (pool m)).
  split; [now apply checkout_lowest|].
  split; [reflexivity|].
  split.
  { rewrite lowestFree_length. unfold freeCount in Hfree. lia. }
  split.
  { unfold lowestFree, freeIndices.
    pose proof (freeFrom_sorted (pool m) 0) as Hs.
    rewrite <- (firstn_skipn (Z.to_nat (runCPUs (provider m)))
                  (freeFrom 0 (pool m))) in Hs.
    revert Hs. generalize (firstn (Z.to_nat (runCPUs (provider m)))
                             (freeFrom 0 (pool m))).
    intros l. induction l as [|x l IH]; simpl; intros Hs; [constructor|].
    inversion Hs as [|? ? Hs' Hall]; subst. constructor; [now apply IH|].
    rewrite Forall_app in Hall. tauto. }
  split; [intros k; apply lowestFree_In|].
  split; [apply flagged_length|].
  split.
  - intros k Hk. rewrite flagged_nth by (eapply lowestFree_bound; eassumption).
    apply existsb_eqb_In in Hk. now rewrite Hk.
  - intros k Hk.
    destruct (Nat.lt_ge_cases k (List.length (pool m))) as [Hlt|Hge].
    + rewrite flagged_nth by assumption.
      destruct (existsb _ _) eqn:E; [|reflexivity].
      apply existsb_eqb_In in E. contradiction.
    + unfold flagged. rewrite assignAll_nth_out by assumption.
      symmetry. now apply nth_error_None.
Qed.

(** ** The specification's statements about the pool *)

(** C2, as amended. For every pool state and every requested size [n],
    if fewer than [n] indices are free then the checkout fails with the
    error "not enough free CPUsets" and leaves the whole state, every pool
    flag included, exactly as it was. *)
Theorem C2_checkout_exhausted_leaves_pool (m : machine) :
  freeCount (pool m) < runCPUs (provider m) ->
  checkoutCPUSets m =
  Ret ((EmptyString, Some (Errorf "not enough free CPUsets")), m).
Proof. apply checkout_exhausted. Qed.

Lemma C2_checkout_exhausted_witness :
  freeCount (pool (machineOf 2 [true; false])) < 2 /\
  checkoutCPUSets (machineOf 2 [true; false]) =
  Ret ((EmptyString, Some (Errorf "not enough free CPUsets")),
       machineOf 2 [true; false]).
Proof.
  split; [reflexivity|].
  apply (C2_checkout_exhausted_leaves_pool (machineOf 2 [true; false])).
  reflexivity.
Defined.

(** C2, as stated, fails on the message: with one free index and two
    requested, the checkout does not fail with the error
    "not enough free CPU sets". *)
Lemma C2_message_counterexample :
  freeCount (pool (machineOf 2 [true; false])) < 2 /\
  forall s m',
    checkoutCPUSets (machineOf 2 [true; false]) <>
    Ret ((s, Some (Errorf "not enough free CPU sets")), m').
Proof.
  split; [reflexivity|].
  intros s m' H. vm_compute in H. discriminate H.
Qed.

(** C3, as stated, fails: the token "7" parses, names no index of a pool
    of two, and the check-in panics. *)
Lemma C3_out_of_range_counterexample :
  checkinCPUSets "7" (machineOf 2 [true; true])
  = Panic "index out of range".
Proof. reflexivity. Qed.

(** C3, as amended. For every input string whose tokens, where they parse
    as unsigned decimals, name indices of the pool, the check-in returns:
    tokens that do not parse are skipped, the flags named by a token are
    false afterwards (already free or not), every other flag is what it
    was, and the pool keeps its length. *)
Theorem C3_checkin_tolerant (sets : string) (m : machine) :
  goSlice (pool m) ->
  (forall tok cpu, In tok (Split sets ",") -> ParseUint tok = Some cpu ->
                   cpu < Z.of_nat (List.length (pool m))) ->
  exists flags',
    checkinCPUSets sets m = Ret (tt, withPool m flags') /\
    List.length flags' = List.length (pool m) /\
    forall k, (k < List.length (pool m))%nat ->
              nth_error flags' k =
              if named sets k then Some false else nth_error (pool m) k.
Proof.
  intros Hs H.
  exists (cleared (namedIndices (Split sets ",")) (pool m)).
  split; [|split].
  - apply checkin_run. now apply checkinTokens_cleared.
  - apply cleared_length.
  - intros k Hk. rewrite cleared_nth by assumption.
    now rewrite namedIndices_named.
Qed.

Lemma C3_checkin_tolerant_witness :
  exists flags',
    checkinCPUSets "x,,1,-2" (machineOf 2 [true; true; true])
    = Ret (tt, withPool (machineOf 2 [true; true; true]) flags') /\
    List.length flags' = 3%nat /\
    forall k, (k < 3)%nat ->
              nth_error flags' k =
              if named "x,,1,-2" k then Some false
              else nth_error [true; true; true] k.
Proof.
  apply (C3_checkin_tolerant "x,,1,-2" (machineOf 2 [true; true; true])).
  - vm_compute. discriminate.
  - intros tok cpu Hin Hp. simpl in Hin.
    destruct Hin as [<-|[<-|[<-|[<-|[]]]]]; vm_compute in Hp;
      try discriminate.
    injection Hp as <-. reflexivity.
Defined.

(** C7, at the size the help text documents as "0 disables allocation":
    with no CPU requested and index 0 free, the pool has at least [n] free
    indices and yet the checkout fails, instead of returning the empty
    assignment. *)
Theorem C7_zero_cpus_checkout_fails :
  runCPUs (provider (machineOf 0 [false; false]))
    <= freeCount (pool (machineOf 0 [false; false])) /\
  checkoutCPUSets (machineOf 0 [false; false]) =
  Ret ((EmptyString, Some (Errorf "not enough free CPUsets")),
       machineOf 0 [false; false]).
Proof. split; [vm_compute; discriminate|reflexivity]. Qed.

(** C10. For every pool state and every [n] at least 1, if the checkout
    succeeds with the assignment [s], checking [s] in afterwards restores
    the state, and so the flag array, exactly. *)
Theorem C10_checkout_checkin_roundtrip (m m' : machine) (s : string) :
  goSlice (pool m) ->
  1 <= runCPUs (provider m) ->
  checkoutCPUSets m = Ret ((s, None), m') ->
  exists m'',
    checkinCPUSets s m' = Ret (tt, m'') /\ pool m'' = pool m /\ m'' = m.
Proof.
  intros Hs Hn Hco. exists m.
  split; [|split; reflexivity].
  apply checkout_success in Hco.
  destruct Hco as (_ & _ & -> & ->).
  set (sel := lowestFree (runCPUs (provider m)) (pool m)).
  rewrite (checkin_run _ _ (cleared sel (flagged sel (pool m)))).
  - rewrite withPool_withPool, cleared_flagged.
    + now rewrite withPool_same.
    + intros k. apply lowestFree_In.
  - rewrite pool_withPool. apply checkinTokens_assignment.
    + unfold goSlice. now rewrite flagged_length.
    + intros k Hk. rewrite flagged_length.
      eapply lowestFree_bound; eassumption.
Qed.

Lemma C10_roundtrip_witness :
  checkoutCPUSets (machineOf 2 [true; false; false])
  = Ret (("1,2", None), machineOf 2 [true; true; true]) /\
  exists m'',
    checkinCPUSets "1,2" (machineOf 2 [true; true; true]) = Ret (tt, m'') /\
    pool m'' = [true; false; false] /\
    m'' = machineOf 2 [true; false; false].
Proof.
  split; [reflexivity|].
  apply (C10_checkout_checkin_roundtrip
           (machineOf 2 [true; false; false])
           (machineOf 2 [true; true; true]) "1,2").
  - vm_compute. discriminate.
  - vm_compute. discriminate.
  - reflexivity.
Defined.

(** ** Image selection *)

Section ImageSelection.

Variable images : list APIImages.

Lemma existsb_tag (tag : string) (tags : list string) :
  existsb (fun t => String.eqb t tag) tags = true <-> In tag tags.
Proof.
  rewrite existsb_exists. split.
  - intros [t [Ht E]]. apply String.eqb_eq in E. now subst.
  - intros H. exists tag. split; [assumption|apply String.eqb_refl].
Qed.

(** The inner loops find an image exactly when one carries the tag. *)
Lemma findInImages_carries (tag : string) :
  (exists id, findInImages tag images = Some id) <-> carries images tag.
Proof.
  unfold carries. induction images as [|image rest IH]; simpl.
  - split; [intros [id H]; discriminate|intros [image [[] _]]].
  - destruct (String.eqb_spec tag (imgID image)) as [E|E].
    + split; [|intros _; eauto].
      intros _. exists image. split; [now left|left; congruence].
    + destruct (existsb _ (RepoTags image)) eqn:Et.
      * split; [|intros _; eauto].
        intros _. exists image. split; [now left|right].
        now apply existsb_tag.
      * rewrite IH. split.
        -- intros [im [Hin Hc]]. exists im. split; [now right|assumption].
        -- intros [im [[<-|Hin] Hc]].
           ++ destruct Hc as [Hc|Hc]; [congruence|].
              apply existsb_tag in Hc. congruence.
           ++ exists im. split; assumption.
Qed.

Lemma findInImages_None (tag : string) :
  findInImages tag images = None <-> ~ carries images tag.
Proof.
  rewrite <- findInImages_carries.
  destruct (findInImages tag images) as [id|].
  - split; [discriminate|]. intros H. exfalso. apply H. eauto.
  - split; [|reflexivity]. intros _ [id H]. discriminate.
Qed.

(** The first search tag carried by the catalog is the one returned. *)
Lemma findDockerImageByTag_first (pre post : list string) (tag : string) :
  (forall t, In t pre -> ~ carries images t) ->
  carries images tag ->
  exists id,
    findDockerImageByTag (pre ++ tag :: post) images = (id, tag, None).
Proof.
  intros Hpre Htag. induction pre as [|t pre IH]; simpl.
  - apply findInImages_carries in Htag. destruct Htag as [id ->]. eauto.
  - assert (Ht : findInImages t images = None)
      by (apply findInImages_None, Hpre; now left).
    rewrite Ht. apply IH. intros t' Ht'. apply Hpre. now right.
Qed.

(** No search tag carried: the error, with no identifier and no name. *)
Lemma findDockerImageByTag_none (tags : list string) :
  (forall t, In t tags -> ~ carries images t) ->
  findDockerImageByTag tags images
  = (EmptyString, EmptyString, Some errNoTag).
Proof.
  induction tags as [|t tags IH]; intros H; simpl; auto.
  assert (Ht : findInImages t images = None)
    by (apply findInImages_None, H; now left).
  rewrite Ht. apply IH. intros t' Ht'. apply H. now right.
Qed.

End ImageSelection.

Lemma Select_first (d : docker) (images : list APIImages)
  (language : string) (pre post : list string) (tag : string) :
  ListImages d = (images, None) ->
  candidates language = (pre ++ tag :: post)%list ->
  (forall t, In t pre -> ~ carries images t) ->
  carries images tag ->
  Select d language = (tag, None).
Proof.
  intros Hl Hc Hpre Htag. unfold Select. rewrite Hl.
  change [("travis:" ++ language)%string; language; "travis:default";
          "default"] with (candidates language).
  rewrite Hc.
  destruct (findDockerImageByTag_first images pre post tag Hpre Htag)
    as [id ->].
  reflexivity.
Qed.

(** C5, as amended. For every image catalog and every language [L] the tag
    selector tries "travis:L", "L", "travis:default", "default" in this
    order against every image identifier and every repository tag; the
    first candidate carried by the catalog is the result (so "ruby"
    resolves to "travis:ruby" when that tag is present, and a language
    nothing is tagged for resolves to "travis:default" when that is
    present); when no candidate is carried the selection fails with
    "failed to find matching docker image tag". *)
Theorem C5_select_order (d : docker) (images : list APIImages)
  (L : string) :
  ListImages d = (images, None) ->
  candidates L = [ "travis:" ++ L; L; "travis:default"; "default" ] /\
  (forall pre tag post,
      candidates L = (pre ++ tag :: post)%list ->
      (forall t, In t pre -> ~ carries images t) ->
      carries images tag ->
      Select d L = (tag, None)) /\
  (carries images "travis:ruby" -> L = "ruby" ->
   Select d L = ("travis:ruby", None)) /\
  (~ carries images ("travis:" ++ L) -> ~ carries images L ->
   carries images "travis:default" ->
   Select d L = ("travis:default", None)) /\
  ((forall t, In t (candidates L) -> ~ carries images t) ->
   Select d L =
   (EmptyString, Some (Errorf "failed to find matching docker image tag"))).
Proof.
  intros Hl. split; [reflexivity|]. split; [|split; [|split]].
  - intros pre tag post Hc Hpre Htag.
    eapply Select_first; eassumption.
  - intros Hr ->.
    apply (Select_first d images "ruby" [] ["ruby"; "travis:default";
                                            "default"] "travis:ruby");
      auto; intros t [].
  - intros H1 H2 H3.
    apply (Select_first d images L [("travis:" ++ L)%string; L] ["default"]
                        "travis:default"); auto;
      intros t [<-|[<-|[]]]; assumption.
  - intros H. unfold Select. rewrite Hl.
    change [("travis:" ++ L)%string; L; "travis:default"; "default"]
      with (candidates L).
    now rewrite findDockerImageByTag_none.
Qed.

Lemma C5_select_order_witness :
  Select (dockerOf [mkImage "sha256:aa" ["travis:default"];
                    mkImage "sha256:bb" ["travis:ruby"; "ruby"]]
                   (None, None) [] None None) "ruby"
  = ("travis:ruby", None).
Proof.
  refine (proj1 (proj2 (proj2
            (C5_select_order
               (dockerOf [mkImage "sha256:aa" ["travis:default"];
                          mkImage "sha256:bb" ["travis:ruby"; "ruby"]]
                         (None, None) [] None None)
               [mkImage "sha256:aa" ["travis:default"];
                mkImage "sha256:bb" ["travis:ruby"; "ruby"]]
               "ruby" eq_refl))) _ eq_refl).
  exists (mkImage "sha256:bb" ["travis:ruby"; "ruby"]).
  split; [right; left; reflexivity|right; left; reflexivity].
Defined.

(** C5, as stated, fails on the message: on an empty catalog no candidate
    is carried and the selection does not fail with
    "failed to find matching image tag". *)
Lemma C5_message_counterexample :
  (forall t, In t (candidates "ruby") -> ~ carries [] t) /\
  forall name,
    Select (dockerOf [] (None, None) [] None None) "ruby" <>
    (name, Some (Errorf "failed to find matching image tag")).
Proof.
  split.
  - intros t _ [image [[] _]].
  - intros name H. vm_compute in H. discriminate H.
Qed.

(** ** Instance identity *)

Section Identity.





End Identity.



(** An identifier shorter than seven bytes: the slice panics. *)
Lemma ID_short_identifier_panics :
  dockerInstance_ID (mkInstance (Some (containerOf "abc" true)) 0
                                "travis:ruby" false)
  = Panic "slice bounds out of range".
Proof. reflexivity. Qed.

(** ** The secure-shell transport *)

Section SecureShell.

Variable d : docker.
Variable peer : sshPeer.

(** Connecting touches neither the provider nor the remote files. *)
Lemma sshConnection_frame (i i' : dockerInstance) (r : option error)
  (m m1 : machine) :
  sshConnection d peer i m = Ret ((i', r), m1) ->
  provider m1 = provider m /\ remoteFiles m1 = remoteFiles m.
Proof.
  unfold sshConnection, bind, getProvider, deref, emit, ret, panic.
  destruct (container i) as [c|]; [|discriminate].
  destruct (InspectContainer d) as [answer [e|]]; simpl.
  - intros E. injection E as <- <- <-. now split.
  - destruct answer as [c'|]; [|discriminate]. simpl.
    intros E. injection E as <- <- <-. now split.
Qed.



(** File absent and the transfer succeeds: no error, the script is there. *)
Lemma uploadScriptSCP_writes (i i' : dockerInstance) (script : string)
  (m m1 : machine) :
  sshConnection d peer i m = Ret ((i', None), m1) ->
  lookupFile "build.sh" (remoteFiles m) = None ->
  writeErr peer = None ->
  exists m2,
    uploadScriptSCP d peer i script m = Ret ((i', None), m2) /\
    remoteFiles m2 = ("build.sh", script) :: remoteFiles m.
Proof.
  intros Hc Hf He.
  destruct (sshConnection_frame _ _ _ _ _ Hc) as [_ Hr].
  unfold uploadScriptSCP, bind. rewrite Hc.
  unfold UploadFile, bind, emit; simpl. rewrite Hr, Hf, He. simpl.
  eexists. split; [reflexivity|]. simpl. congruence.
Qed.

(** A failure to connect is returned as it is, before any upload. *)
Lemma uploadScriptSCP_no_connection (i i' : dockerInstance)
  (script : string) (e : error) (m m1 : machine) :
  sshConnection d peer i m = Ret ((i', Some e), m1) ->
  uploadScriptSCP d peer i script m = Ret ((i', Some e), m1).
Proof.
  intros Hc. unfold uploadScriptSCP, bind. now rewrite Hc.
Qed.

(** Once connected, [Completed] is true exactly when [RunCommand] returned
    an error. *)
Lemma runScriptSSH_completed (i i' : dockerInstance) (m m1 : machine) :
  sshConnection d peer i m = Ret ((i', None), m1) ->
  exists m2,
    runScriptSSH d peer i m =
    Ret ((i', (mkRunResult (isNonNil (snd (RunCommand peer)))
                           (fst (RunCommand peer)),
               Wrap (snd (RunCommand peer)) "error running script")), m2).
Proof.
  intros Hc. unfold runScriptSSH, bind, getProvider. rewrite Hc.
  destruct (RunCommand peer) as [exitStatus err].
  unfold emit, ret; simpl. eauto.
Qed.

End SecureShell.



(** C4, on a run that completes and on one that the transport cuts. When
    [RunCommand] returns exit status 3 and no error, the result says
    [Completed = false]; when it returns an error, the result says
    [Completed = true] next to the wrapped error. The flag is the negation
    of what the specification states. *)
Theorem C4_completed_is_inverted :
  (exists i' m',
      runScriptSSH dockerSSH (peerOf (3, None) None)
        (instanceOf "0123456789abcdef" "travis:ruby") (machineWith [])
      = Ret ((i', (mkRunResult false 3, None)), m')) /\
  (exists i' m',
      runScriptSSH dockerSSH (peerOf (0, Some (Errorf "EOF")) None)
        (instanceOf "0123456789abcdef" "travis:ruby") (machineWith [])
      = Ret ((i', (mkRunResult true 0,
                   Some (Wrapped (Errorf "EOF") "error running script"))),
             m')).
Proof. split; eexists; eexists; reflexivity. Qed.

(** ** Provisioning and shutdown *)

Section Provisioning.

Variable d : docker.

(** The readiness poll writes nothing but its trace, and a container it
    reports ready carries the configuration [Start] wrote into it. *)
Lemma pollUntilRunning_frame
  (answers : list (option Container * option error)) (id : string)
  (cfg : Config) (hc : HostConfig) (m m' : machine) (ev : pollEvent) :
  pollUntilRunning answers id cfg hc m = Ret (ev, m') ->
  provider m' = provider m /\
  (forall c, ev = Ready c -> cConfig c = Some cfg).
Proof.
  revert m; induction answers as [|[answer err] answers IH]; intros m; simpl.
  - unfold ret. intros E. injection E as <- <-. split; [reflexivity|].
    intros c Hc. discriminate.
  - unfold bind, emit, deref, ret, panic.
    destruct answer as [c|]; [|discriminate].
    destruct err as [e|].
    + intros E. injection E as <- <-. split; [reflexivity|].
      intros c' Hc. discriminate.
    + simpl. destruct (Running c).
      * intros E. injection E as <- <-. split; [reflexivity|].
        intros c' Hc. injection Hc as <-. reflexivity.
      * intros E. apply IH in E. exact E.
Qed.

Lemma resolveImage_frame (a : StartAttributes) (m m' : machine)
  (r : error + string * string) :
  resolveImage d a m = Ret (r, m') -> provider m' = provider m.
Proof.
  unfold resolveImage, bind, getProvider, emit, ret.
  destruct (negb _).
  - intros E. now injection E as <- <-.
  - destruct (match imageSelector (provider m) with
              | TagSelector => _ | APISelector => _ end) as [name [e|]].
    + intros E. now injection E as <- <-.
    + destruct (ContainsByte name ";"); intros E; now injection E as <- <-.
Qed.

(** After the checkout, [Start] only talks to the daemon: the provider is
    left alone, and an instance is returned only with a container whose
    configuration records the assignment [s]. *)
Lemma createAndBoot_frame (p : dockerProvider) (imageID name s : string)
  (m m' : machine) (r : option dockerInstance * option error) :
  createAndBoot d p imageID name s m = Ret (r, m') ->
  provider m' = provider m /\
  (forall inst, fst r = Some inst ->
     exists c cfg, container inst = Some c /\ cConfig c = Some cfg /\
                   CPUSet cfg = s).
Proof.
  unfold createAndBoot.
  set (cfg := if negb (s =? "")%string then _ else _).
  set (hc := if negb (s =? "")%string then _ else _).
  assert (Hcfg : CPUSet cfg = s).
  { unfold cfg. destruct (String.eqb_spec s EmptyString) as [->|]; reflexivity. }
  clearbody cfg hc.
  unfold bind, emit, deref, ret, panic.
  destruct (CreateContainer d) as [[c|] err]; [|discriminate].
  destruct err as [e|]; simpl.
  - destruct (RemoveContainer d); simpl; intros E; injection E as <- <-;
      (split; [reflexivity|intros inst Hi; discriminate]).
  - destruct (StartContainer d).
    + intros E. injection E as <- <-.
      split; [reflexivity|intros inst Hi; discriminate].
    + destruct (pollUntilRunning _ _ _ _ _) as [[ev mp]|] eqn:Ep;
        [|discriminate].
      apply pollUntilRunning_frame in Ep. destruct Ep as [Hp Hr].
      destruct ev as [c'|e|].
      * intros E. injection E as <- <-.
        split; [exact Hp|]. intros inst Hi. injection Hi as <-.
        exists c', cfg. simpl. auto.
      * intros E. injection E as <- <-.
        split; [exact Hp|intros inst Hi; discriminate].
      * destruct (errorIsDeadline (ctxErr d)); simpl;
          intros E; injection E as <- <-;
          (split; [exact Hp|intros inst Hi; discriminate]).
Qed.

(** What a successful [Start] has done to the pool and to the instance. *)
Lemma Start_returns_instance (a : StartAttributes) (m m1 : machine)
  (inst : dockerInstance) (err : option error) :
  Start d a m = Ret ((Some inst, err), m1) ->
  let sel := lowestFree (runCPUs (provider m)) (pool m) in
  pool m1 = flagged sel (pool m) /\
  exists c cfg,
    container inst = Some c /\ cConfig c = Some cfg /\
    CPUSet cfg = Join (map Itoa (map Z.of_nat sel)) ",".
Proof.
  unfold Start, bind, getProvider.
  destruct (resolveImage d a m) as [[r mA]|] eqn:Er; [|discriminate].
  apply resolveImage_frame in Er.
  destruct r as [e|[imageID name]].
  - unfold ret. intros E. discriminate.
  - destruct (checkoutCPUSets mA) as [[[s [e|]] mB]|] eqn:Ec;
      [| |discriminate].
    + unfold emit, ret. intros E. discriminate.
    + apply checkout_success in Ec. destruct Ec as (_ & _ & Hs & HB).
      unfold emit at 1. simpl.
      intros E. apply createAndBoot_frame in E. destruct E as [Hp Hi].
      simpl in Hp. unfold pool in *. rewrite Er in *.
      split.
      * rewrite Hp, HB. reflexivity.
      * destruct (Hi inst eq_refl) as (c & cfg & H1 & H2 & H3).
        exists c, cfg. repeat split; congruence.
Qed.

End Provisioning.

(** [Stop] on an instance whose configuration records the assignment of
    the indices [sel]: the outcome is that of the daemon calls, and the
    pool has exactly the flags of [sel] cleared. *)
Lemma Stop_releases (d : docker) (inst : dockerInstance) (c : Container)
  (cfg : Config) (sel : list nat) (m : machine) :
  container inst = Some c -> cConfig c = Some cfg ->
  CPUSet cfg = Join (map Itoa (map Z.of_nat sel)) "," ->
  goSlice (pool m) ->
  (forall k, In k sel -> (k < List.length (pool m))%nat) ->
  exists m',
    Stop d inst m = Ret (stopOutcome d, m') /\
    pool m' = cleared sel (pool m).
Proof.
  intros Hc Hcfg Hs Hg Hsel.
  unfold Stop, bind, deref, emit, ret. rewrite Hc, Hcfg, Hs.
  unfold stopOutcome.
  destruct (StopContainer d) as [e|].
  - erewrite checkin_run by (apply checkinTokens_assignment; assumption).
    eexists. split; reflexivity.
  - erewrite checkin_run by (apply checkinTokens_assignment; assumption).
    eexists. split; reflexivity.
Qed.

(** For the instance as [Start] returned it, its handle not yet replaced by
    a re-inspection: the checkout flagged the lowest free indices of the
    pool, and [Stop], in any state of the pool and whatever the daemon
    answers to the stop and to the removal, clears exactly the flags of
    these indices and leaves the others as they are; the value returned is
    the error of the stop call when it fails, the outcome of the removal
    otherwise. *)
Lemma Stop_of_started_instance (d0 : docker) (a : StartAttributes)
  (m0 m1 : machine) (inst : dockerInstance) :
  goSlice (pool m0) ->
  Start d0 a m0 = Ret ((Some inst, None), m1) ->
  let sel := lowestFree (runCPUs (provider m0)) (pool m0) in
  pool m1 = flagged sel (pool m0) /\
  forall (d : docker) (m : machine),
    List.length (pool m) = List.length (pool m0) ->
    exists m',
      Stop d inst m = Ret (stopOutcome d, m') /\
      (forall e, StopContainer d = Some e -> stopOutcome d = Some e) /\
      (StopContainer d = None -> stopOutcome d = RemoveContainer d) /\
      List.length (pool m') = List.length (pool m) /\
      (forall k, In k sel -> nth_error (pool m') k = Some false) /\
      (forall k, ~ In k sel -> nth_error (pool m') k = nth_error (pool m) k).
Proof.
  intros Hg Hstart sel.
  apply Start_returns_instance in Hstart.
  destruct Hstart as (Hpool & c & cfg & Hc & Hcfg & Hs).
  split; [exact Hpool|].
  intros d m Hlen.
  assert (Hsel : forall k, In k sel -> (k < List.length (pool m))%nat).
  { intros k Hk. rewrite Hlen. eapply lowestFree_bound; eassumption. }
  destruct (Stop_releases d inst c cfg sel m Hc Hcfg Hs) as [m' [Hr Hp]];
    [unfold goSlice in *; now rewrite Hlen|assumption|].
  exists m'. split; [exact Hr|].
  split; [intros e He; unfold stopOutcome; now rewrite He|].
  split; [intros He; unfold stopOutcome; now rewrite He|].
  rewrite Hp. split; [apply cleared_length|]. split.
  - intros k Hk. rewrite cleared_nth by now apply Hsel.
    apply existsb_eqb_In in Hk. now rewrite Hk.
  - intros k Hk.
    destruct (Nat.lt_ge_cases k (List.length (pool m))) as [Hlt|Hge].
    + rewrite cleared_nth by assumption.
      destruct (existsb _ _) eqn:E; [|reflexivity].
      apply existsb_eqb_In in E. contradiction.
    + unfold cleared. rewrite assignAll_nth_out by assumption.
      symmetry. now apply nth_error_None.
Qed.

Lemma Stop_of_started_instance_witness :
  exists inst m1,
    Start (dockerOf [] (Some (containerOf "0123456789abcdef" false), None)
                    [(Some (containerOf "0123456789abcdef" true), None)]
                    None None)
          (mkAttrs "ruby" "travis:ruby") (machineOf 2 [true; false; false])
    = Ret ((Some inst, None), m1) /\
    pool m1 = [true; true; true] /\
    exists m',
      Stop (dockerOf [] (None, None) [] (Some (Errorf "no such container"))
                     None) inst m1
      = Ret (Some (Errorf "no such container"), m') /\
      nth_error (pool m') 1 = Some false /\
      nth_error (pool m') 2 = Some false /\
      nth_error (pool m') 0 = Some true.
Proof.
  eexists. eexists. split; [vm_compute; reflexivity|].
  match goal with
  | |- pool ?m1 = _ /\ (exists m', Stop ?d ?inst _ = _ /\ _) =>
      destruct (Stop_of_started_instance
                  (dockerOf [] (Some (containerOf "0123456789abcdef" false),
                                None)
                     [(Some (containerOf "0123456789abcdef" true), None)]
                     None None)
                  (mkAttrs "ruby" "travis:ruby")
                  (machineOf 2 [true; false; false]) m1 inst)
        as [Hp Hstop];
      [vm_compute; discriminate|vm_compute; reflexivity|];
      destruct (Hstop d m1 eq_refl) as (m' & Hr & _ & _ & _ & Hc & Ho)
  end.
  split; [reflexivity|].
  exists m'. split; [exact Hr|].
  split; [apply Hc; vm_compute; tauto|].
  split; [apply Hc; vm_compute; tauto|].
  rewrite Ho; [reflexivity|].
  vm_compute. intros [H|[H|[]]]; discriminate.
Defined.

(** [Stop] checks in what the handle says. When the configuration of the
    handle holds the empty CPU set, nothing is released. *)
Lemma Stop_releases_nothing (d : docker) (inst : dockerInstance)
  (c : Container) (cfg : Config) (m : machine) :
  container inst = Some c -> cConfig c = Some cfg ->
  CPUSet cfg = EmptyString ->
  exists m', Stop d inst m = Ret (stopOutcome d, m') /\ pool m' = pool m.
Proof.
  intros Hc Hcfg Hs.
  unfold Stop, bind, deref, emit, ret. rewrite Hc, Hcfg, Hs.
  unfold stopOutcome.
  destruct (StopContainer d) as [e|]; rewrite checkin_empty;
    eexists; split; reflexivity.
Qed.

(** C1, on an instance that uploaded its script over the secure shell
    before it is stopped. [Start] returns the instance with the CPUs 1 and
    2 checked out and recorded in the handle; the upload succeeds, and
    [sshConnection] has replaced the handle with the daemon's answer to
    its inspection, which [Start] patches with the configuration and
    [sshConnection] does not. When that answer holds no CPU set, [Stop]
    returns without error and the pool still has the three flags set:
    nothing was released. When that answer holds no configuration, [Stop]
    panics on the nil pointer before it stops anything. *)
Theorem C1_stop_after_upload_releases_nothing :
  exists inst m1,
    Start (dockerOf [] (Some (containerOf "0123456789abcdef" false), None)
                    [(Some (containerOf "0123456789abcdef" true), None)]
                    None None)
          (mkAttrs "ruby" "travis:ruby") (machineOf 2 [true; false; false])
    = Ret ((Some inst, None), m1) /\
    pool m1 = [true; true; true] /\
    (exists inst' m2 m3,
        uploadScriptSCP
          (dockerInspecting
             (Some (reportedContainer "0123456789abcdef" EmptyString), None))
          (peerOf (0, None) None) inst "echo ok" m1
        = Ret ((inst', None), m2) /\
        Stop (dockerOf [] (None, None) [] None None) inst' m2
        = Ret (None, m3) /\
        pool m3 = [true; true; true]) /\
    (exists inst' m2,
        uploadScriptSCP
          (dockerInspecting (Some (bareContainer "0123456789abcdef"), None))
          (peerOf (0, None) None) inst "echo ok" m1
        = Ret ((inst', None), m2) /\
        Stop (dockerOf [] (None, None) [] None None) inst' m2
        = Panic "invalid memory address or nil pointer dereference").
Proof.
  eexists. eexists. split; [vm_compute; reflexivity|].
  split; [reflexivity|]. split.
  - eexists. eexists. eexists. split; [vm_compute; reflexivity|].
    split; [vm_compute; reflexivity|]. reflexivity.
  - eexists. eexists. split; [vm_compute; reflexivity|]. reflexivity.
Qed.

(** ** Creation failure *)

(** The creation fails and the daemon still hands a container back: the
    creation error is returned, the removal is requested, a failure of the
    removal is only logged, and the provider, its pool included, is left as
    the checkout made it. *)
Lemma createAndBoot_create_failure (d : docker) (p : dockerProvider)
  (imageID name s : string) (m : machine) (c : Container) (e : error) :
  CreateContainer d = (Some c, Some e) ->
  exists m',
    createAndBoot d p imageID name s m = Ret ((None, Some e), m') /\
    provider m' = provider m /\
    In (RemoveContainerCall (ID c) true true) (events m') /\
    (forall e', RemoveContainer d = Some e' ->
       In (LogError "couldn't remove container after create failure" e')
          (events m')).
Proof.
  intros Hc. unfold createAndBoot, bind, emit, deref, ret. rewrite Hc.
  simpl. destruct (RemoveContainer d) as [e'|]; simpl;
    eexists; (split; [reflexivity|]); simpl;
    (split; [reflexivity|]); split.
  - rewrite !in_app_iff; simpl; tauto.
  - intros e'' E. injection E as <-. rewrite !in_app_iff; simpl; tauto.
  - rewrite !in_app_iff; simpl; tauto.
  - discriminate.
Qed.

(** The creation fails and the daemon hands back nil: the assignment of
    the configuration to the handle panics before the error is looked
    at. *)
Lemma createAndBoot_nil_handle (d : docker) (p : dockerProvider)
  (imageID name s : string) (m : machine) (err : option error) :
  CreateContainer d = (None, err) ->
  createAndBoot d p imageID name s m
  = Panic "invalid memory address or nil pointer dereference".
Proof.
  intros Hc. unfold createAndBoot, bind, emit, deref, panic. now rewrite Hc.
Qed.

(** C6, when the creation fails the way the client library reports a
    failure, with a nil container next to the error: after a successful
    checkout of two CPUs [Start] does not return the creation error, it
    panics on the nil handle. *)
Theorem C6_create_failure_nil_handle_panics :
  2 <= freeCount [false; false; false] /\
  Start (dockerOf [] (None, Some (Errorf "no such image")) [] None None)
        (mkAttrs "ruby" "travis:ruby") (machineOf 2 [false; false; false])
  = Panic "invalid memory address or nil pointer dereference".
Proof. split; [vm_compute; discriminate|reflexivity]. Qed.

(** The same failure with a container handed back: the creation error is
    returned and the two CPUs checked out stay flagged. *)
Lemma Start_create_failure_with_handle :
  exists m',
    Start (dockerOf [] (Some (containerOf "0123456789abcdef" false),
                        Some (Errorf "no such image")) []
                    None (Some (Errorf "removal failed")))
          (mkAttrs "ruby" "travis:ruby") (machineOf 2 [false; false; false])
    = Ret ((None, Some (Errorf "no such image")), m') /\
    pool m' = [true; true; false] /\
    In (RemoveContainerCall "0123456789abcdef" true true) (events m') /\
    In (LogError "couldn't remove container after create failure"
                 (Errorf "removal failed")) (events m').
Proof.
  eexists. split; [vm_compute; reflexivity|].
  split; [reflexivity|]. split; simpl; tauto.
Qed.

(** In general: once the image is resolved and the checkout has succeeded,
    a nil container from the creation makes [Start] panic, whether or not
    the creation reported an error. *)
Lemma Start_nil_handle (d : docker) (a : StartAttributes)
  (m mA mB : machine) (x : string * string) (s : string)
  (err : option error) :
  resolveImage d a m = Ret (inr x, mA) ->
  checkoutCPUSets mA = Ret ((s, None), mB) ->
  CreateContainer d = (None, err) ->
  Start d a m = Panic "invalid memory address or nil pointer dereference".
Proof.
  intros Hr Hc Hn. unfold Start, bind, getProvider.
  rewrite Hr. destruct x as [imageID name]. rewrite Hc.
  unfold emit at 1. now apply (createAndBoot_nil_handle d _ _ _ _ _ err).
Qed.

(** * Further properties of the pool *)

Section PoolInvariants.

(** Every index the scan holds is an index of the pool it scanned. *)
Lemma scanFree_range (n : Z) (flags : list bool) (i : nat) (acc : list Z) :
  (forall z, In z acc -> 0 <= z < Z.of_nat i) ->
  forall z, In z (scanFree n flags (Z.of_nat i) acc) ->
            0 <= z < Z.of_nat (i + List.length flags).
Proof.
  revert i acc; induction flags as [|b flags IH]; intros i acc Hacc z; simpl.
  - intros Hz. apply Hacc in Hz. lia.
  - set (acc' := if negb b then (acc ++ [Z.of_nat i])%list else acc).
    assert (Hacc' : forall y, In y acc' -> 0 <= y < Z.of_nat (S i)).
    { intros y Hy. unfold acc' in Hy. destruct b; simpl in Hy.
      - apply Hacc in Hy. lia.
      - apply in_app_iff in Hy. destruct Hy as [Hy|[<-|[]]].
        + apply Hacc in Hy. lia.
        + lia. }
    destruct (Z.of_nat (List.length acc') =? n).
    + intros Hz. apply Hacc' in Hz. lia.
    + replace (Z.of_nat i + 1) with (Z.of_nat (S i)) by lia.
      intros Hz. apply IH in Hz; [lia|assumption].
Qed.

(** The scan never drops what it already holds. *)
Lemma scanFree_length_ge (n : Z) (flags : list bool) (i : Z) (acc : list Z) :
  (List.length acc <= List.length (scanFree n flags i acc))%nat.
Proof.
  revert i acc; induction flags as [|b flags IH]; intros i acc; simpl; auto.
  set (acc' := if negb b then (acc ++ [i])%list else acc).
  assert (List.length acc <= List.length acc')%nat.
  { unfold acc'. destruct b; simpl; [lia|]. rewrite length_app. simpl. lia. }
  destruct (Z.of_nat (List.length acc') =? n); [assumption|].
  specialize (IH (i + 1) acc'). lia.
Qed.

(** Marking indices of the pool never fails. *)
Lemma markAll_total (sel : list Z) (flags : list bool) :
  (forall z, In z sel -> 0 <= z < Z.of_nat (List.length flags)) ->
  exists flags', markAll flags sel = Some flags'.
Proof.
  revert flags; induction sel as [|z sel IH]; intros flags H; simpl.
  - eauto.
  - assert (Hz : 0 <= z < Z.of_nat (List.length flags))
      by (apply H; now left).
    rewrite <- (Z2Nat.id z) by lia.
    rewrite store_Some by lia.
    apply IH. intros y Hy. rewrite update_length. apply H. now right.
Qed.

(** The check-in loop, whenever it ends, keeps the length of the pool and
    sets no flag. *)
Lemma checkinTokens_frame (toks : list string) (flags flags' : list bool) :
  checkinTokens flags toks = Some flags' ->
  List.length flags' = List.length flags /\
  forall k, nth_error flags' k = Some true -> nth_error flags k = Some true.
Proof.
  revert flags; induction toks as [|tok toks IH]; intros flags; simpl.
  - intros E. injection E as <-. auto.
  - destruct (ParseUint tok) as [cpu|]; [|apply IH].
    unfold store.
    destruct ((0 <=? int_of_uint64 cpu)
              && (int_of_uint64 cpu <? Z.of_nat (List.length flags)))
      eqn:Hr; [|discriminate].
    intros E. apply IH in E. destruct E as [Hl Hm].
    rewrite update_length in Hl. split; [exact Hl|].
    intros k Hk. apply Hm in Hk.
    destruct (Nat.eq_dec (Z.to_nat (int_of_uint64 cpu)) k) as [<-|Hne].
    + apply andb_prop in Hr. destruct Hr as [H0 H1].
      apply Z.leb_le in H0. apply Z.ltb_lt in H1.
      rewrite update_nth_same in Hk by lia. discriminate.
    + now rewrite update_nth_other in Hk by assumption.
Qed.

(** Two strictly ascending lists with the same elements are equal. *)
Lemma sorted_ext (l1 l2 : list nat) :
  StronglySorted lt l1 -> StronglySorted lt l2 ->
  (forall x, In x l1 <-> In x l2) -> l1 = l2.
Proof.
  revert l2; induction l1 as [|a l1 IH]; intros l2 H1 H2 H.
  - destruct l2 as [|b l2]; [reflexivity|].
    exfalso. apply (proj2 (H b)). now left.
  - destruct l2 as [|b l2].
    + exfalso. apply (proj1 (H a)). now left.
    + inversion H1 as [|? ? S1 F1]; subst.
      inversion H2 as [|? ? S2 F2]; subst.
      rewrite Forall_forall in F1, F2.
      assert (a = b).
      { destruct (proj1 (H a) (or_introl eq_refl)) as [Hab|Hab];
          [congruence|].
        destruct (proj2 (H b) (or_introl eq_refl)) as [Hba|Hba];
          [congruence|].
        apply F2 in Hab. apply F1 in Hba. lia. }
      subst b. f_equal. apply IH; try assumption.
      intros x. split; intros Hx.
      * destruct (proj1 (H x) (or_intror Hx)) as [<-|Hx']; [|assumption].
        apply F1 in Hx. lia.
      * destruct (proj2 (H x) (or_intror Hx)) as [<-|Hx']; [|assumption].
        apply F2 in Hx. lia.
Qed.

Lemma sorted_app_inv (l1 l2 : list nat) :
  StronglySorted lt (l1 ++ l2) ->
  StronglySorted lt l1 /\ StronglySorted lt l2 /\
  forall x y, In x l1 -> In y l2 -> (x < y)%nat.
Proof.
  induction l1 as [|a l1 IH]; simpl; intros H.
  - repeat split; [constructor|assumption|intros x y []].
  - inversion H as [|? ? S F]; subst.
    destruct (IH S) as (S1 & S2 & Hlt).
    rewrite Forall_app in F. destruct F as [F1 F2].
    repeat split; [constructor; assumption|assumption|].
    intros x y [<-|Hx] Hy.
    + rewrite Forall_forall in F2. now apply F2.
    + now apply Hlt.
Qed.

(** After the [k] lowest free indices are flagged, the free indices are
    the former ones without their first [k]. *)
Lemma freeIndices_flagged (k : nat) (flags : list bool) :
  freeIndices (flagged (firstn k (freeIndices flags)) flags)
  = skipn k (freeIndices flags).
Proof.
  pose proof (freeFrom_sorted flags 0) as Hs.
  fold (freeIndices flags) in Hs.
  rewrite <- (firstn_skipn k (freeIndices flags)) in Hs.
  destruct (sorted_app_inv _ _ Hs) as (S1 & S2 & Hlt).
  apply sorted_ext; [apply freeFrom_sorted|assumption|].
  intros x. rewrite freeIndices_In.
  destruct (Nat.lt_ge_cases x (List.length flags)) as [Hx|Hx].
  - rewrite flagged_nth by assumption.
    destruct (existsb (Nat.eqb x) (firstn k (freeIndices flags))) eqn:E.
    + apply existsb_eqb_In in E. split; [discriminate|].
      intros Hin. specialize (Hlt x x E Hin). lia.
    + rewrite <- freeIndices_In.
      rewrite <- (firstn_skipn k (freeIndices flags)) at 1.
      rewrite in_app_iff. split; [|tauto].
      intros [Hin|Hin]; [|assumption].
      apply existsb_eqb_In in Hin. congruence.
  - split.
    + intros Hn. exfalso.
      assert (nth_error (flagged (firstn k (freeIndices flags)) flags) x
              <> None) by congruence.
      apply nth_error_Some in H. rewrite flagged_length in H. lia.
    + intros Hin.
      assert (In x (freeIndices flags)).
      { rewrite <- (firstn_skipn k (freeIndices flags)).
        apply in_or_app. now right. }
      apply freeFrom_bound in H. simpl in H. lia.
Qed.

End PoolInvariants.

(** The checkout always returns; what it keeps of the state. *)
Lemma checkout_returns (m : machine) :
  exists s e m',
    checkoutCPUSets m = Ret ((s, e), m') /\
    List.length (pool m') = List.length (pool m) /\
    (forall k, nth_error (pool m) k = Some true ->
               nth_error (pool m') k = Some true) /\
    (e <> None -> m' = m /\ s = EmptyString).
Proof.
  destruct (checkoutCPUSets m) as [[[s e] m']|why] eqn:E.
  - exists s, e, m'. split; [reflexivity|].
    destruct e as [e|].
    + assert (m' = m /\ s = EmptyString).
      { revert E. unfold checkoutCPUSets, bind, getProvider, ret.
        destruct (negb _).
        - intros E. injection E as <- _ <-. auto.
        - destruct (markAll _ _); [|discriminate].
          unfold putCPUSets. intros E. discriminate. }
      destruct H as [-> ->]. repeat split; auto.
    + apply checkout_success in E. destruct E as (_ & _ & _ & ->).
      rewrite pool_withPool. split; [apply flagged_length|]. split.
      * intros k Hk.
        assert (k < List.length (pool m))%nat
          by (apply nth_error_Some; congruence).
        rewrite flagged_nth by assumption.
        now destruct (existsb _ _).
      * congruence.
  - exfalso. revert E. unfold checkoutCPUSets, bind, getProvider, ret.
    destruct (negb _); [discriminate|].
    destruct (markAll_total
                (scanFree (runCPUs (provider m)) (cpuSets (provider m)) 0 [])
                (cpuSets (provider m))) as [flags' ->].
    + intros z Hz. change 0 with (Z.of_nat 0) in Hz.
      apply scanFree_range in Hz; [exact Hz|intros y []].
    + discriminate.
Qed.

(** X1. The checkout never panics: the indices it marks come from its own
    scan of the pool. Whatever it returns, the pool keeps its length and
    no flag that was set is cleared; when it returns an error the state is
    untouched and the assignment is empty. *)
Theorem checkout_total (m : machine) :
  exists s e m',
    checkoutCPUSets m = Ret ((s, e), m') /\
    List.length (pool m') = List.length (pool m) /\
    (forall k, nth_error (pool m) k = Some true ->
               nth_error (pool m') k = Some true) /\
    (e <> None -> m' = m /\ s = EmptyString).
Proof. exact (checkout_returns m). Qed.

(** The free list after a successful checkout. *)
Lemma checkout_free_list (m m' : machine) (s : string) :
  checkoutCPUSets m = Ret ((s, None), m') ->
  freeIndices (pool m')
  = skipn (Z.to_nat (runCPUs (provider m))) (freeIndices (pool m)) /\
  freeCount (pool m') = freeCount (pool m) - runCPUs (provider m).
Proof.
  intros E. apply checkout_success in E.
  destruct E as (Hn & Hlen & _ & ->).
  rewrite pool_withPool. unfold lowestFree, freeCount in *.
  rewrite freeIndices_flagged. split; [reflexivity|].
  rewrite length_skipn.
  rewrite length_firstn in Hlen. lia.
Qed.

(** X2. A successful checkout of [n] takes the [n] first free indices off
    the free list and nothing else: the free indices afterwards are the
    former ones without their first [n], so the free count drops by
    exactly [n]. *)
Theorem checkout_accounting (m m' : machine) (s : string) :
  checkoutCPUSets m = Ret ((s, None), m') ->
  freeIndices (pool m')
  = skipn (Z.to_nat (runCPUs (provider m))) (freeIndices (pool m)) /\
  freeCount (pool m') = freeCount (pool m) - runCPUs (provider m).
Proof. exact (checkout_free_list m m' s). Qed.

Lemma checkout_accounting_witness :
  freeIndices [true; true; true; false; false]
  = skipn 2 (freeIndices [false; true; false; false; false]) /\
  freeCount [true; true; true; false; false]
  = freeCount [false; true; false; false; false] - 2.
Proof.
  apply (checkout_accounting
           (machineOf 2 [false; true; false; false; false])
           (machineOf 2 [true; true; true; false; false]) "0,2").
  reflexivity.
Defined.

(** X3. No index is handed out twice: of two checkouts in a row that both
    succeed, the second selects none of the indices the first selected,
    and all of them are flagged afterwards. *)
Theorem checkout_twice_disjoint (m m1 m2 : machine) (s1 s2 : string) :
  checkoutCPUSets m = Ret ((s1, None), m1) ->
  checkoutCPUSets m1 = Ret ((s2, None), m2) ->
  exists sel1 sel2,
    s1 = Join (map Itoa (map Z.of_nat sel1)) "," /\
    s2 = Join (map Itoa (map Z.of_nat sel2)) "," /\
    (forall k, In k sel1 -> ~ In k sel2) /\
    (forall k, In k sel1 \/ In k sel2 ->
               nth_error (pool m2) k = Some true).
Proof.
  intros E1 E2.
  pose proof (checkout_success _ _ _ E1) as (_ & _ & Hs1 & Hm1).
  pose proof (checkout_success _ _ _ E2) as (_ & _ & Hs2 & Hm2).
  exists (lowestFree (runCPUs (provider m)) (pool m)),
         (lowestFree (runCPUs (provider m1)) (pool m1)).
  split; [exact Hs1|]. split; [exact Hs2|]. split.
  - intros k Hk1 Hk2.
    apply lowestFree_In in Hk2.
    assert (Hb : (k < List.length (pool m))%nat)
      by (eapply lowestFree_bound; eassumption).
    rewrite Hm1, pool_withPool, flagged_nth in Hk2 by assumption.
    apply existsb_eqb_In in Hk1. rewrite Hk1 in Hk2. discriminate.
  - intros k Hk.
    assert (H1 : forall j, In j (lowestFree (runCPUs (provider m)) (pool m))
                           -> nth_error (pool m1) j = Some true).
    { intros j Hj. rewrite Hm1, pool_withPool.
      rewrite flagged_nth by (eapply lowestFree_bound; eassumption).
      apply existsb_eqb_In in Hj. now rewrite Hj. }
    rewrite Hm2, pool_withPool.
    destruct Hk as [Hk|Hk].
    + specialize (H1 k Hk).
      assert (k < List.length (pool m1))%nat
        by (apply nth_error_Some; congruence).
      rewrite flagged_nth by assumption.
      rewrite H1. now destruct (existsb _ _).
    + rewrite flagged_nth by (eapply lowestFree_bound; eassumption).
      apply existsb_eqb_In in Hk. now rewrite Hk.
Qed.

Lemma checkout_twice_disjoint_witness :
  exists sel1 sel2,
    "0,1" = Join (map Itoa (map Z.of_nat sel1)) "," /\
    "2,3" = Join (map Itoa (map Z.of_nat sel2)) "," /\
    (forall k, In k sel1 -> ~ In k sel2) /\
    (forall k, In k sel1 \/ In k sel2 ->
               nth_error [true; true; true; true; false] k = Some true).
Proof.
  apply (checkout_twice_disjoint
           (machineOf 2 [false; false; false; false; false])
           (machineOf 2 [true; true; false; false; false])
           (machineOf 2 [true; true; true; true; false]) "0,1" "2,3");
    reflexivity.
Defined.

(** The cases in which the checkout succeeds. *)
Lemma checkout_success_cases (m : machine) :
  (exists s m', checkoutCPUSets m = Ret ((s, None), m')) <->
  (1 <= runCPUs (provider m) <= freeCount (pool m)) \/
  (runCPUs (provider m) = 0 /\
   (pool m = [] \/ exists rest, pool m = true :: rest)).
Proof.
  split.
  - intros (s & m' & E).
    pose proof (checkout_success _ _ _ E) as (Hn & Hlen & _ & _).
    destruct (Z.eq_dec (runCPUs (provider m)) 0) as [H0|H0].
    + right. split; [assumption|].
      revert E. unfold checkoutCPUSets, bind, getProvider, ret.
      rewrite H0. change (cpuSets (provider m)) with (pool m).
      destruct (pool m) as [|[|] rest]; [auto|eauto|].
      simpl.
      pose proof (scanFree_length_ge 0 rest 1 [0]) as Hge.
      cbn [List.length] in Hge.
      destruct (Z.eqb_spec
                  (Z.of_nat (List.length (scanFree 0 rest 1 [0]))) 0);
        [lia|]. simpl. discriminate.
    + left. split; [lia|].
      rewrite lowestFree_length in Hlen. unfold freeCount. lia.
  - intros [[H1 H2]|[H0 Hp]].
    + rewrite checkout_lowest by assumption. eauto.
    + unfold checkoutCPUSets, bind, getProvider, ret.
      rewrite H0. change (cpuSets (provider m)) with (pool m).
      destruct Hp as [->|[rest ->]]; simpl; eauto.
Qed.

(** X4. The checkout succeeds exactly when [n] is positive and at most the
    number of free indices, or [n] is zero and index 0 is not free (or the
    pool is empty): a zero size is served only when the first slot is
    taken, and a negative size never. *)
Theorem checkout_succeeds_iff (m : machine) :
  (exists s m', checkoutCPUSets m = Ret ((s, None), m')) <->
  (1 <= runCPUs (provider m) <= freeCount (pool m)) \/
  (runCPUs (provider m) = 0 /\
   (pool m = [] \/ exists rest, pool m = true :: rest)).
Proof. exact (checkout_success_cases m). Qed.

(** What the check-in keeps of the state whenever it returns. *)
Lemma checkin_frame (sets : string) (m m' : machine) :
  checkinCPUSets sets m = Ret (tt, m') ->
  m' = withPool m (pool m') /\
  List.length (pool m') = List.length (pool m) /\
  forall k, nth_error (pool m') k = Some true ->
            nth_error (pool m) k = Some true.
Proof.
  unfold checkinCPUSets, bind, getProvider.
  change (cpuSets (provider m)) with (pool m).
  destruct (checkinTokens (pool m) (Split sets ",")) as [flags'|] eqn:E;
    [|discriminate].
  unfold putCPUSets. intros H. injection H as <-.
  apply checkinTokens_frame in E. destruct E as [Hl Hm].
  split; [reflexivity|]. split; assumption.
Qed.

(** X5. The check-in never allocates: for every string, whenever it
    returns, the pool keeps its length, no flag is set that was not set,
    and nothing else of the state changes. *)
Theorem checkin_never_allocates (sets : string) (m m' : machine) :
  checkinCPUSets sets m = Ret (tt, m') ->
  m' = withPool m (pool m') /\
  List.length (pool m') = List.length (pool m) /\
  forall k, nth_error (pool m') k = Some true ->
            nth_error (pool m) k = Some true.
Proof. exact (checkin_frame sets m m'). Qed.

Lemma checkin_never_allocates_witness :
  machineOf 2 [true; false; false]
  = withPool (machineOf 2 [true; true; false]) [true; false; false] /\
  List.length [true; false; false] = List.length [true; true; false] /\
  forall k, nth_error [true; false; false] k = Some true ->
            nth_error [true; true; false] k = Some true.
Proof.
  apply (checkin_never_allocates "1,x,2"
           (machineOf 2 [true; true; false])
           (machineOf 2 [true; false; false])).
  reflexivity.
Defined.

(** X6. Checking the same assignment in twice is the same as once. *)
Theorem checkin_idempotent (sets : string) (m m' : machine) :
  checkinCPUSets sets m = Ret (tt, m') ->
  checkinCPUSets sets m' = Ret (tt, m').
Proof.
  intros E.
  pose proof (checkin_frame _ _ _ E) as (Hm' & Hl & _).
  revert E. unfold checkinCPUSets, bind, getProvider.
  change (cpuSets (provider m)) with (pool m).
  change (cpuSets (provider m')) with (pool m').
  destruct (checkinTokens (pool m) (Split sets ",")) as [flags'|] eqn:E;
    [|discriminate].
  unfold putCPUSets. intros H. injection H as H.
  assert (Hp : pool m' = flags') by (rewrite <- H; reflexivity).
  rewrite Hp.
  assert (Hi : checkinTokens flags' (Split sets ",") = Some flags').
  { clear - E. revert E. generalize (pool m) as flags.
    generalize (Split sets ",") as toks. intros toks.
    assert (Hgen : forall flags f1,
               checkinTokens flags toks = Some f1 ->
               forall g, List.length g = List.length flags ->
                 (forall k, nth_error g k = Some true ->
                            nth_error f1 k = Some true) ->
                 (forall k, nth_error f1 k = Some true ->
                            nth_error g k = Some true) ->
                 checkinTokens g toks = Some g).
    { induction toks as [|tok toks IH]; intros flags f1 E g Hlen Hg1 Hg2;
        simpl in *; [reflexivity|].
      destruct (ParseUint tok) as [cpu|]; [|eapply IH; eassumption].
      unfold store in *. rewrite Hlen.
      destruct ((0 <=? int_of_uint64 cpu)
                && (int_of_uint64 cpu <? Z.of_nat (List.length flags)))
        eqn:Hr; [|discriminate].
      apply andb_prop in Hr. destruct Hr as [H0 H1].
      apply Z.leb_le in H0. apply Z.ltb_lt in H1.
      set (i := Z.to_nat (int_of_uint64 cpu)) in *.
      assert (Hi : (i < List.length flags)%nat) by (unfold i; lia).
      pose proof (checkinTokens_frame _ _ _ E) as [Hl1 Hm1].
      rewrite update_length in Hl1.
      assert (Hgi : nth_error g i = Some false).
      { destruct (nth_error g i) as [[|]|] eqn:Eg.
        - apply Hg1 in Eg. apply Hm1 in Eg.
          rewrite update_nth_same in Eg by assumption. discriminate.
        - reflexivity.
        - apply nth_error_None in Eg. lia. }
      assert (Hu : update g i false = g).
      { apply nth_error_ext. intros k.
        destruct (Nat.eq_dec i k) as [<-|Hne].
        - rewrite update_nth_same by lia. now rewrite Hgi.
        - now rewrite update_nth_other. }
      rewrite Hu.
      eapply IH; try eassumption. now rewrite update_length. }
    intros flags E. eapply Hgen; eauto.
    apply checkinTokens_frame in E. tauto. }
  rewrite Hi. f_equal. f_equal. rewrite <- H. reflexivity.
Qed.

Lemma checkin_idempotent_witness :
  checkinCPUSets "1,2" (machineOf 2 [true; false; false])
  = Ret (tt, machineOf 2 [true; false; false]).
Proof.
  apply (checkin_idempotent "1,2" (machineOf 2 [true; true; true])).
  reflexivity.
Defined.

(** * Further properties of image selection *)

(** An image found for a tag is an image of the catalog that carries it. *)
Lemma findInImages_sound (images : list APIImages) (tag id : string) :
  findInImages tag images = Some id ->
  exists image, In image images /\ imgID image = id /\
                (imgID image = tag \/ In tag (RepoTags image)).
Proof.
  induction images as [|image rest IH]; simpl; [discriminate|].
  destruct (String.eqb_spec tag (imgID image)) as [E|E].
  - intros H. injection H as <-. exists image. auto.
  - destruct (existsb _ (RepoTags image)) eqn:Et.
    + intros H. injection H as <-. exists image.
      apply existsb_tag in Et. auto.
    + intros H. destruct (IH H) as (im & Hin & Hid & Hc).
      exists im. auto.
Qed.

(** Failure and success of the search, case by case. *)
Lemma findDockerImageByTag_cases (searchTags : list string)
  (images : list APIImages) :
  (snd (findDockerImageByTag searchTags images) = None <->
   exists tag, In tag searchTags /\ carries images tag) /\
  (forall id tag,
      findDockerImageByTag searchTags images = (id, tag, None) ->
      In tag searchTags /\
      exists image, In image images /\ imgID image = id /\
                    (imgID image = tag \/ In tag (RepoTags image))) /\
  (snd (findDockerImageByTag searchTags images) <> None ->
   findDockerImageByTag searchTags images
   = (EmptyString, EmptyString, Some errNoTag)).
Proof.
  induction searchTags as [|t tags IH]; simpl.
  - split; [|split].
    + split; [discriminate|]. intros (tag & [] & _).
    + intros id tag H. discriminate.
    + reflexivity.
  - destruct (findInImages t images) as [id0|] eqn:E.
    + split; [|split].
      * simpl. split; [|reflexivity]. intros _. exists t.
        split; [now left|]. apply findInImages_carries. eauto.
      * intros id tag H. injection H as <- <-.
        split; [now left|]. now apply findInImages_sound.
      * simpl. congruence.
    + destruct IH as (IH1 & IH2 & IH3). split; [|split].
      * rewrite IH1. split.
        -- intros (tag & Hin & Hc). exists tag. split; [now right|assumption].
        -- intros (tag & [<-|Hin] & Hc).
           ++ apply findInImages_None in E. contradiction.
           ++ eauto.
      * intros id tag H. destruct (IH2 id tag H) as [Hin Him].
        split; [now right|assumption].
      * exact IH3.
Qed.

(** X7. [findDockerImageByTag] fails exactly when no search tag is carried
    by the catalog; when it succeeds, the tag returned is one of the search
    tags, the identifier returned is that of an image of the catalog, and
    this image carries the tag. *)
Theorem findDockerImageByTag_sound (searchTags : list string)
  (images : list APIImages) :
  (snd (findDockerImageByTag searchTags images) = None <->
   exists tag, In tag searchTags /\ carries images tag) /\
  (forall id tag,
      findDockerImageByTag searchTags images = (id, tag, None) ->
      In tag searchTags /\
      exists image, In image images /\ imgID image = id /\
                    (imgID image = tag \/ In tag (RepoTags image))) /\
  (snd (findDockerImageByTag searchTags images) <> None ->
   findDockerImageByTag searchTags images
   = (EmptyString, EmptyString, Some errNoTag)).
Proof. exact (findDockerImageByTag_cases searchTags images). Qed.

(** X8. The tag selector answers only with one of its four candidates, and
    only with one the catalog carries; when the images cannot be listed it
    returns the listing error wrapped with "failed to list docker images"
    and no name. *)
Theorem Select_sound (d : docker) (L : string) :
  (forall images name,
      ListImages d = (images, None) ->
      Select d L = (name, None) ->
      In name (candidates L) /\ carries images name) /\
  (forall images e,
      ListImages d = (images, Some e) ->
      Select d L
      = (EmptyString, Some (Wrapped e "failed to list docker images"))).
Proof.
  split.
  - intros images name Hl. unfold Select. rewrite Hl.
    change [("travis:" ++ L)%string; L; "travis:default"; "default"]
      with (candidates L).
    destruct (findDockerImageByTag (candidates L) images)
      as [[id tag] err] eqn:E.
    intros H. injection H as -> ->.
    destruct (findDockerImageByTag_cases (candidates L) images)
      as (_ & Hs & _).
    destruct (Hs id name E) as (Hin & image & Him & _ & Hc).
    split; [assumption|]. exists image. auto.
  - intros images e Hl. unfold Select. now rewrite Hl.
Qed.

Lemma Select_sound_witness :
  In "travis:default" (candidates "go") /\
  carries [mkImage "sha256:aa" ["travis:default"]] "travis:default".
Proof.
  apply (proj1 (Select_sound
                  (dockerOf [mkImage "sha256:aa" ["travis:default"]]
                            (None, None) [] None None) "go")
               [mkImage "sha256:aa" ["travis:default"]] "travis:default");
    reflexivity.
Defined.

(** X9. [dockerImageIDFromName] never fails: it answers the name itself
    when the images cannot be listed or none carries the name, and
    otherwise the identifier of an image of the catalog that carries the
    name. *)
Theorem dockerImageIDFromName_fallback (d : docker) (name : string) :
  (forall images e, ListImages d = (images, Some e) ->
                    dockerImageIDFromName d name = name) /\
  (forall images, ListImages d = (images, None) ->
                  ~ carries images name ->
                  dockerImageIDFromName d name = name) /\
  (forall images, ListImages d = (images, None) ->
                  carries images name ->
                  exists image,
                    In image images /\
                    dockerImageIDFromName d name = imgID image /\
                    (imgID image = name \/ In name (RepoTags image))).
Proof.
  unfold dockerImageIDFromName. split; [|split].
  - intros images e ->. reflexivity.
  - intros images -> Hn. simpl.
    apply findInImages_None in Hn. now rewrite Hn.
  - intros images -> Hc. simpl.
    apply findInImages_carries in Hc. destruct Hc as [id Hid].
    rewrite Hid. apply findInImages_sound in Hid.
    destruct Hid as (image & Hin & <- & Hc). exists image. auto.
Qed.

Lemma dockerImageIDFromName_witness :
  exists image,
    In image [mkImage "sha256:aa" ["travis:default"];
              mkImage "sha256:bb" ["travis:ruby"; "ruby"]] /\
    dockerImageIDFromName
      (dockerOf [mkImage "sha256:aa" ["travis:default"];
                 mkImage "sha256:bb" ["travis:ruby"; "ruby"]]
                (None, None) [] None None) "ruby" = imgID image /\
    (imgID image = "ruby" \/ In "ruby" (RepoTags image)).
Proof.
  apply (proj2 (proj2 (dockerImageIDFromName_fallback
           (dockerOf [mkImage "sha256:aa" ["travis:default"];
                      mkImage "sha256:bb" ["travis:ruby"; "ruby"]]
                     (None, None) [] None None) "ruby"))
           [mkImage "sha256:aa" ["travis:default"];
            mkImage "sha256:bb" ["travis:ruby"; "ruby"]] eq_refl).
  exists (mkImage "sha256:bb" ["travis:ruby"; "ruby"]).
  split; [right; left; reflexivity|right; right; left; reflexivity].
Defined.

Lemma SplitN2_cut (s : string) (sep : ascii) :
  (ContainsByte s sep = false /\ SplitN2 s sep = [s]) \/
  (exists id name,
      ContainsByte s sep = true /\ SplitN2 s sep = [id; name] /\
      s = (id ++ String sep name)%string /\ ContainsByte id sep = false).
Proof.
  induction s as [|c s IH]; simpl.
  - now left.
  - destruct (Ascii.eqb_spec c sep) as [->|Hne]; simpl.
    + right. exists EmptyString, s. auto.
    + destruct IH as [[Hc ->]|(id & name & Hc & -> & -> & Hid)].
      * left. auto.
      * right. exists (String c id), name. simpl.
        repeat split; try assumption.
        apply orb_false_iff. split; [|assumption].
        now apply Ascii.eqb_neq.
Qed.

(** X10. [dockerImageIDNameFromSelection] cuts the trimmed selection at its
    first semicolon: the identifier holds no semicolon and identifier,
    semicolon and name give the trimmed selection back; without a
    semicolon the trimmed selection is both identifier and name. *)
Theorem dockerImageIDNameFromSelection_cut (d : docker)
  (selection : string) :
  let t := TrimSpace d selection in
  let '(id, name) := dockerImageIDNameFromSelection d selection in
  (ContainsByte t ";" = true ->
   t = (id ++ ";" ++ name)%string /\ ContainsByte id ";" = false) /\
  (ContainsByte t ";" = false -> id = t /\ name = t).
Proof.
  unfold dockerImageIDNameFromSelection.
  destruct (SplitN2_cut (TrimSpace d selection) ";")
    as [[Hc ->]|(id & name & Hc & -> & Ht & Hid)]; simpl.
  - rewrite Hc. split; [discriminate|auto].
  - rewrite Hc. split; [|discriminate]. intros _. auto.
Qed.

(** * Further properties of provisioning and shutdown *)

Section Lifecycle.

Variable d : docker.

(** Image resolution never panics; it leaves the state alone when it
    succeeds and adds one line to the log when it fails. *)
Lemma resolveImage_cases (a : StartAttributes) (m : machine) :
  (exists x, resolveImage d a m = Ret (inr x, m)) \/
  (exists e, resolveImage d a m
             = Ret (inl e, addEvents m [LogError "couldn't select image" e])).
Proof.
  unfold resolveImage, bind, getProvider, emit, ret.
  destruct (negb _); [left; eauto|].
  destruct (match imageSelector (provider m) with
            | TagSelector => _ | APISelector => _ end) as [name [e|]].
  - right. exists e. reflexivity.
  - left. destruct (ContainsByte name ";"); eauto.
Qed.

Lemma resolveImage_explicit (a : StartAttributes) (m : machine) :
  attrImageName a <> EmptyString ->
  resolveImage d a m = Ret (inr (EmptyString, attrImageName a), m).
Proof.
  intros H. unfold resolveImage, bind, getProvider, ret.
  destruct (String.eqb_spec (attrImageName a) EmptyString); [contradiction|].
  reflexivity.
Qed.


(** While every answer says "not running", the poll goes on to the end. *)
Lemma pollUntilRunning_waiting
  (answers : list (option Container * option error)) (id : string)
  (cfg : Config) (hc : HostConfig) (m : machine) :
  Forall (fun ans => exists c, ans = (Some c, None) /\ Running c = false)
         answers ->
  pollUntilRunning answers id cfg hc m
  = Ret (CtxDone,
         addEvents m (repeat (InspectContainerCall id)
                             (List.length answers))).
Proof.
  revert m; induction answers as [|ans answers IH]; intros m H; simpl.
  - unfold ret, addEvents. rewrite app_nil_r. now destruct m.
  - inversion H as [|? ? (c & -> & Hr) Hrest]; subst.
    unfold bind, emit, deref, ret. simpl. rewrite Hr.
    rewrite IH by assumption. unfold addEvents; simpl.
    now rewrite <- app_assoc.
Qed.


(** A checkout that returns an error leaves the state as it was. *)
Lemma checkout_error_state (m m' : machine) (s : string) (e : error) :
  checkoutCPUSets m = Ret ((s, Some e), m') -> m' = m.
Proof.
  intros E. destruct (checkout_returns m) as (s0 & e0 & m0 & E0 & _ & _ & He).
  rewrite E in E0. injection E0 as <- <- <-.
  apply He. discriminate.
Qed.

Lemma checkout_no_panic (m : machine) (why : string) :
  checkoutCPUSets m <> Panic why.
Proof.
  destruct (checkout_returns m) as (s0 & e0 & m0 & E0 & _). congruence.
Qed.

Lemma setCPUSets_same (p : dockerProvider) : setCPUSets p (cpuSets p) = p.
Proof. now destruct p. Qed.

(** [Start] changes nothing of the provider but the flags, and nothing of
    the remote files. *)
Lemma Start_provider (a : StartAttributes) (m m' : machine)
  (r : option dockerInstance * option error) :
  Start d a m = Ret (r, m') ->
  provider m' = setCPUSets (provider m) (pool m').
Proof.
  unfold Start, bind, getProvider.
  destruct (resolveImage_cases a m) as [[[imageID name] ->]|[e ->]].
  - destruct (checkoutCPUSets m) as [[[s [e|]] mB]|why] eqn:Ec.
    + apply checkout_error_state in Ec. subst mB.
      unfold emit, ret. intros E. injection E as _ <-.
      unfold pool; simpl. now rewrite setCPUSets_same.
    + apply checkout_success in Ec. destruct Ec as (_ & _ & _ & ->).
      unfold emit at 1. simpl. intros E.
      apply createAndBoot_frame in E. destruct E as [Hp _]. simpl in Hp.
      unfold pool. rewrite Hp. reflexivity.
    + now apply checkout_no_panic in Ec.
  - unfold ret. intros E. injection E as _ <-.
    unfold pool; simpl. now rewrite setCPUSets_same.
Qed.

End Lifecycle.

(** X11. [Start] fails before it asks for any container when the pool is
    exhausted or the image cannot be selected: it returns the error
    without panicking, and the state is as before, the pool included, but
    for a trace that grew by lines of the log only, so that no creation,
    removal, start, stop or inspection was requested. (The images may
    have been listed; listing is an answer of the daemon that the trace
    does not record.) *)
Theorem Start_fails_before_creation (d : docker) (a : StartAttributes)
  (m : machine) :
  (freeCount (pool m) < runCPUs (provider m) ->
   exists e es,
     Start d a m = Ret ((None, Some e), addEvents m es) /\
     Forall isLog es) /\
  (forall e m1,
     resolveImage d a m = Ret (inl e, m1) ->
     Start d a m
     = Ret ((None, Some e),
            addEvents m [LogError "couldn't select image" e])).
Proof.
  split.
  - intros Hfree. unfold Start, bind, getProvider.
    destruct (resolveImage_cases d a m) as [[[imageID name] ->]|[e ->]].
    + rewrite checkout_exhausted by assumption.
      exists errNotEnough, [LogError "couldn't checkout CPUSets" errNotEnough].
      split; [reflexivity|]. repeat constructor.
    + exists e, [LogError "couldn't select image" e].
      split; [reflexivity|]. repeat constructor.
  - intros e m1 Hr. unfold Start, bind, getProvider.
    destruct (resolveImage_cases d a m) as [[x Hx]|[e' He']].
    + rewrite Hx in Hr. discriminate.
    + rewrite He' in Hr. injection Hr as <- <-. now rewrite He'.
Qed.

Lemma Start_fails_before_creation_witness :
  exists e es,
    Start (dockerOf [] (None, None) [] None None)
          (mkAttrs "ruby" "travis:ruby") (machineOf 2 [true; false; true])
    = Ret ((None, Some e), addEvents (machineOf 2 [true; false; true]) es) /\
    Forall isLog es.
Proof.
  apply (proj1 (Start_fails_before_creation
                  (dockerOf [] (None, None) [] None None)
                  (mkAttrs "ruby" "travis:ruby")
                  (machineOf 2 [true; false; true]))).
  reflexivity.
Defined.

(** X12. Once the image is resolved and the checkout has succeeded, no
    outcome of [Start] gives the CPUs back: whether the creation, the
    start or an inspection fails, the context ends, or an instance is
    returned, the pool is as the checkout left it. *)
Theorem Start_keeps_checkout (d : docker) (a : StartAttributes)
  (m m2 m' : machine) (x : string * string) (s : string)
  (r : option dockerInstance * option error) :
  resolveImage d a m = Ret (inr x, m) ->
  checkoutCPUSets m = Ret ((s, None), m2) ->
  Start d a m = Ret (r, m') ->
  pool m' = pool m2 /\
  pool m' = flagged (lowestFree (runCPUs (provider m)) (pool m)) (pool m).
Proof.
  intros Hr Hc. unfold Start, bind, getProvider. rewrite Hr.
  destruct x as [imageID name]. rewrite Hc.
  unfold emit at 1. simpl. intros E.
  apply createAndBoot_frame in E. destruct E as [Hp _]. simpl in Hp.
  apply checkout_success in Hc. destruct Hc as (_ & _ & _ & ->).
  assert (H : pool m' = flagged (lowestFree (runCPUs (provider m)) (pool m))
                                (pool m))
    by (unfold pool at 1; now rewrite Hp).
  rewrite pool_withPool. split; exact H.
Qed.

Lemma Start_keeps_checkout_witness :
  exists r m',
    Start (dockerOf [] (Some (containerOf "0123456789abcdef" false), None)
                    [(Some (containerOf "0123456789abcdef" false), None)]
                    None None)
          (mkAttrs "ruby" "travis:ruby") (machineOf 2 [false; false; false])
    = Ret (r, m') /\
    fst r = None /\
    pool m' = pool (machineOf 2 [true; true; false]) /\
    pool m' = flagged (lowestFree 2 [false; false; false])
                      [false; false; false].
Proof.
  eexists. eexists. split; [vm_compute; reflexivity|].
  split; [reflexivity|].
  apply (Start_keeps_checkout
           (dockerOf [] (Some (containerOf "0123456789abcdef" false), None)
                     [(Some (containerOf "0123456789abcdef" false), None)]
                     None None)
           (mkAttrs "ruby" "travis:ruby")
           (machineOf 2 [false; false; false])
           (machineOf 2 [true; true; false]) _
           (EmptyString, "travis:ruby") "0,1" (None, Some Canceled));
    vm_compute; reflexivity.
Defined.

(** The pool after a [Start] and the [Stop] of its instance. *)
Lemma Start_Stop_pool (d d' : docker) (a : StartAttributes)
  (m m1 : machine) (inst : dockerInstance) :
  goSlice (pool m) ->
  Start d a m = Ret ((Some inst, None), m1) ->
  exists m2,
    Stop d' inst m1 = Ret (stopOutcome d', m2) /\ pool m2 = pool m.
Proof.
  intros Hg Hs.
  apply Start_returns_instance in Hs.
  destruct Hs as (Hp & c & cfg & Hc & Hcfg & Hcpu).
  set (sel := lowestFree (runCPUs (provider m)) (pool m)) in *.
  destruct (Stop_releases d' inst c cfg sel m1 Hc Hcfg Hcpu)
    as [m2 [Hr Hp2]].
  - unfold goSlice in *. now rewrite Hp, flagged_length.
  - intros k Hk. rewrite Hp, flagged_length.
    eapply lowestFree_bound; eassumption.
  - exists m2. split; [exact Hr|].
    rewrite Hp2, Hp. apply cleared_flagged.
    intros k. apply lowestFree_In.
Qed.

(** X13. Start then Stop is a round trip on the pool: stopping an
    instance in the state its [Start] left gives back the pool as it was
    before that [Start], whatever the daemon answers to the stop. *)
Theorem Start_Stop_roundtrip (d d' : docker) (a : StartAttributes)
  (m m1 : machine) (inst : dockerInstance) :
  goSlice (pool m) ->
  Start d a m = Ret ((Some inst, None), m1) ->
  exists m2,
    Stop d' inst m1 = Ret (stopOutcome d', m2) /\ pool m2 = pool m.
Proof. exact (Start_Stop_pool d d' a m m1 inst). Qed.

Lemma Start_Stop_roundtrip_witness :
  exists inst m1,
    Start (dockerOf [] (Some (containerOf "0123456789abcdef" false), None)
                    [(Some (containerOf "0123456789abcdef" true), None)]
                    None None)
          (mkAttrs "ruby" "travis:ruby") (machineOf 2 [true; false; false])
    = Ret ((Some inst, None), m1) /\
    exists m2,
      Stop (dockerOf [] (None, None) [] None (Some (Errorf "busy")))
           inst m1
      = Ret (Some (Errorf "busy"), m2) /\
      pool m2 = [true; false; false].
Proof.
  eexists. eexists. split; [vm_compute; reflexivity|].
  match goal with
  | |- exists m2, Stop ?d' ?inst ?m1 = _ /\ _ =>
      apply (Start_Stop_roundtrip
               (dockerOf [] (Some (containerOf "0123456789abcdef" false),
                             None)
                  [(Some (containerOf "0123456789abcdef" true), None)]
                  None None)
               d' (mkAttrs "ruby" "travis:ruby")
               (machineOf 2 [true; false; false]) m1 inst)
  end.
  - vm_compute. discriminate.
  - vm_compute. reflexivity.
Defined.



Lemma Join_Itoa_nonempty (sel : list nat) :
  sel <> [] -> Join (map Itoa (map Z.of_nat sel)) "," <> EmptyString.
Proof.
  destruct sel as [|k sel]; [congruence|]. intros _.
  assert (Hk : Itoa (Z.of_nat k) <> EmptyString).
  { unfold Itoa. destruct (Z.ltb_spec (Z.of_nat k) 0); [lia|].
    apply formatUint_nonempty. }
  simpl. destruct (map Itoa (map Z.of_nat sel)); [exact Hk|].
  destruct (Itoa (Z.of_nat k)); [congruence|discriminate].
Qed.

(** X15. When the image is resolved, the checkout, the creation and the
    start have succeeded, and the context ends while every inspection
    still reports the container as not running, [Start] returns the
    context's error and no instance, and it marks the boot-timeout metric
    exactly when that error is the deadline one. *)
Theorem Start_context_done (d : docker) (a : StartAttributes)
  (m m2 : machine) (x : string * string) (s : string) (c : Container) :
  resolveImage d a m = Ret (inr x, m) ->
  checkoutCPUSets m = Ret ((s, None), m2) ->
  CreateContainer d = (Some c, None) ->
  StartContainer d = None ->
  Forall (fun ans => exists c', ans = (Some c', None) /\ Running c' = false)
         (InspectPolls d) ->
  ~ In bootTimeout (events m) ->
  exists m',
    Start d a m = Ret ((None, Some (ctxErr d)), m') /\
    (In bootTimeout (events m') <-> ctxErr d = DeadlineExceeded).
Proof.
  intros Hr Hco Hc Hs Hpolls Hev.
  pose proof (checkout_success _ _ _ Hco) as (_ & _ & _ & Hm2).
  unfold Start, bind, getProvider.
  rewrite Hr. destruct x as [imageID name]. rewrite Hco.
  unfold emit at 1. cbn [fst snd].
  unfold createAndBoot, bind, emit, deref, ret. rewrite Hc. cbn [fst snd].
  rewrite Hs.
  rewrite pollUntilRunning_waiting by assumption.
  assert (Hrep : forall id n0,
             ~ In bootTimeout (repeat (InspectContainerCall id) n0)).
  { intros id n0 Hin. apply repeat_spec in Hin. discriminate. }
  assert (Hev2 : ~ In bootTimeout (events m2)) by (now subst m2).
  destruct (ctxErr d) eqn:Ee; cbn [errorIsDeadline]; eexists;
    (split; [reflexivity|]);
    cbn [events addEvents provider remoteFiles];
    rewrite !in_app_iff; cbn [In]; split;
    try discriminate; try (intros _; reflexivity); try tauto;
    intros H;
    repeat (destruct H as [H|H]); try contradiction; try discriminate;
    try (apply Hrep in H; contradiction).
Qed.

Lemma Start_context_done_witness :
  exists m',
    Start (mkDocker ([], None) (EmptyString, None)
             (Some (containerOf "0123456789abcdef" false), None) None None
             [(Some (containerOf "0123456789abcdef" false), None)]
             (None, None) None DeadlineExceeded "0000" 0 (fun s => s))
          (mkAttrs "ruby" "travis:ruby") (machineOf 2 [false; false])
    = Ret ((None, Some DeadlineExceeded), m') /\
    (In bootTimeout (events m') <-> DeadlineExceeded = DeadlineExceeded).
Proof.
  apply (Start_context_done
           (mkDocker ([], None) (EmptyString, None)
              (Some (containerOf "0123456789abcdef" false), None) None None
              [(Some (containerOf "0123456789abcdef" false), None)]
              (None, None) None DeadlineExceeded "0000" 0 (fun s => s))
           (mkAttrs "ruby" "travis:ruby") (machineOf 2 [false; false])
           (machineOf 2 [true; true]) (EmptyString, "travis:ruby") "0,1"
           (containerOf "0123456789abcdef" false)).
  - reflexivity.
  - reflexivity.
  - reflexivity.
  - reflexivity.
  - simpl. repeat constructor.
    exists (containerOf "0123456789abcdef" false). split; reflexivity.
  - simpl. tauto.
Defined.

Section Requests.

Variable d : docker.

Lemma pollUntilRunning_events
  (answers : list (option Container * option error)) (id : string)
  (cfg : Config) (hc : HostConfig) (m m' : machine) (ev : pollEvent) :
  pollUntilRunning answers id cfg hc m = Ret (ev, m') ->
  exists es, events m' = (events m ++ es)%list.
Proof.
  revert m; induction answers as [|[answer err] answers IH]; intros m; simpl.
  - unfold ret. intros E. injection E as _ <-. exists [].
    now rewrite app_nil_r.
  - unfold bind, emit, deref, ret, panic.
    destruct answer as [c|]; [|discriminate].
    destruct err as [e|].
    + intros E. injection E as _ <-. simpl. eauto.
    + simpl. destruct (Running c).
      * intros E. injection E as _ <-. simpl. eauto.
      * intros E. apply IH in E. destruct E as [es Hes]. simpl in Hes.
        rewrite <- app_assoc in Hes. eauto.
Qed.

(** Whenever [createAndBoot] returns, the creation was requested with a
    configuration and a host configuration that both carry the assignment,
    when there is one, and with the image identifier it was given. *)
Lemma createAndBoot_request (p : dockerProvider) (imageID name s : string)
  (m m' : machine) (r : option dockerInstance * option error) :
  s <> EmptyString ->
  createAndBoot d p imageID name s m = Ret (r, m') ->
  exists cfg hc,
    In (CreateContainerCall cfg hc) (events m') /\
    CPUSet cfg = s /\ hostCPUSet hc = s /\ Image cfg = imageID /\
    Hostname cfg = ("testing-docker-" ++ newUUID d)%string /\
    Privileged hc = runPrivileged p.
Proof.
  intros Hs. unfold createAndBoot.
  destruct (String.eqb_spec s EmptyString) as [|_]; [contradiction|].
  cbn [negb].
  match goal with
  | |- context [CreateContainerCall ?c ?h] => set (cfg := c); set (hc := h)
  end.
  intros E. exists cfg, hc.
  split; [|repeat split].
  revert E. unfold bind, emit, deref, ret, panic.
  destruct (CreateContainer d) as [[c|] err]; [|discriminate].
  assert (Hin : forall es : list event,
             In (CreateContainerCall cfg hc)
                ((((events m ++ [LogDebug "creating container"])
                   ++ [CreateContainerCall cfg hc]) ++ es))%list).
  { intros es. rewrite !in_app_iff. simpl. tauto. }
  destruct err as [e|]; simpl.
  - destruct (RemoveContainer d); simpl; intros E; injection E as _ <-;
      simpl; rewrite <- ?app_assoc; rewrite !in_app_iff; simpl; tauto.
  - destruct (StartContainer d).
    + intros E. injection E as _ <-. simpl.
      rewrite !in_app_iff; simpl; tauto.
    + destruct (pollUntilRunning _ _ _ _ _) as [[ev mp]|] eqn:Ep;
        [|discriminate].
      apply pollUntilRunning_events in Ep. destruct Ep as [es Hes].
      simpl in Hes.
      assert (Hmp : In (CreateContainerCall cfg hc) (events mp)).
      { rewrite Hes. rewrite !in_app_iff; simpl; tauto. }
      destruct ev as [c'|e|].
      * intros E. injection E as _ <-. simpl.
        rewrite in_app_iff. now left.
      * intros E. injection E as _ <-. exact Hmp.
      * destruct (errorIsDeadline (ctxErr d)); simpl;
          intros E; injection E as _ <-; simpl;
          rewrite ?in_app_iff; auto.
Qed.

End Requests.

(** X16. The creation request carries what [Start] computed: with an image
    named by the caller and a checkout of at least one CPU, whenever
    [Start] returns, the daemon was asked to create a container whose
    configuration and host configuration both hold the checked-out
    assignment as CPU set, whose image is the catalog's identifier for the
    name (or the name itself), and whose host name is "testing-docker-"
    followed by the fresh UUID. *)
Theorem Start_create_request (d : docker) (a : StartAttributes)
  (m m' : machine) (r : option dockerInstance * option error) :
  attrImageName a <> EmptyString ->
  1 <= runCPUs (provider m) <= freeCount (pool m) ->
  Start d a m = Ret (r, m') ->
  exists cfg hc,
    In (CreateContainerCall cfg hc) (events m') /\
    CPUSet cfg
    = Join (map Itoa (map Z.of_nat
              (lowestFree (runCPUs (provider m)) (pool m)))) "," /\
    hostCPUSet hc = CPUSet cfg /\
    Image cfg = dockerImageIDFromName d (attrImageName a) /\
    Hostname cfg = ("testing-docker-" ++ newUUID d)%string.
Proof.
  intros Hexp Hn. unfold Start, bind, getProvider.
  rewrite resolveImage_explicit by assumption.
  rewrite checkout_lowest by tauto.
  unfold emit at 1. simpl. intros E.
  apply createAndBoot_request in E.
  - destruct E as (cfg & hc & Hin & H1 & H2 & H3 & H4 & _).
    exists cfg, hc. repeat split; try assumption; congruence.
  - apply Join_Itoa_nonempty.
    intros Hnil.
    assert (Hl : List.length (lowestFree (runCPUs (provider m)) (pool m))
                 = 0%nat) by now rewrite Hnil.
    rewrite lowestFree_length in Hl. unfold freeCount in Hn. lia.
Qed.

Lemma Start_create_request_witness :
  exists r m',
    Start (dockerOf [mkImage "sha256:bb" ["travis:ruby"]]
                    (Some (containerOf "0123456789abcdef" false), None)
                    [] None None)
          (mkAttrs "" "travis:ruby") (machineOf 2 [true; false; false])
    = Ret (r, m') /\
    exists cfg hc,
      In (CreateContainerCall cfg hc) (events m') /\
      CPUSet cfg = "1,2" /\ hostCPUSet hc = CPUSet cfg /\
      Image cfg = "sha256:bb" /\
      Hostname cfg = "testing-docker-0000".
Proof.
  eexists. eexists. split; [vm_compute; reflexivity|].
  apply (Start_create_request
           (dockerOf [mkImage "sha256:bb" ["travis:ruby"]]
                     (Some (containerOf "0123456789abcdef" false), None)
                     [] None None)
           (mkAttrs "" "travis:ruby") (machineOf 2 [true; false; false])
           _ (None, Some Canceled)).
  - simpl. discriminate.
  - vm_compute. split; discriminate.
  - vm_compute. reflexivity.
Defined.

(** [Stop] changes nothing of the provider but the flags. *)
Lemma Stop_provider (d : docker) (inst : dockerInstance) (m m' : machine)
  (r : option error) :
  Stop d inst m = Ret (r, m') ->
  provider m' = setCPUSets (provider m) (pool m').
Proof.
  unfold Stop, bind, deref, emit, ret, panic.
  destruct (container inst) as [c|]; [|discriminate].
  destruct (cConfig c) as [cfg|]; [|discriminate].
  destruct (StopContainer d); simpl.
  - destruct (checkinCPUSets _ _) as [[[] mc]|] eqn:E; [|discriminate].
    intros H. injection H as _ <-.
    apply checkin_frame in E. destruct E as [E _].
    rewrite E at 1. reflexivity.
  - destruct (checkinCPUSets _ _) as [[[] mc]|] eqn:E; [|discriminate].
    intros H. injection H as _ <-.
    apply checkin_frame in E. destruct E as [E _].
    rewrite E at 1. reflexivity.
Qed.

(** X17. [Stop] is not guarded against a second call. If an instance is
    stopped, its CPUs are handed to a new instance, and the first instance
    is stopped again, the CPUs of the new instance are free in the pool
    although it was never stopped. *)
Theorem Stop_twice_frees_reallocated (d1 d2 d3 d4 : docker)
  (a1 a3 : StartAttributes) (m0 m1 m2 m3 : machine)
  (A B : dockerInstance) (r2 : option error) :
  goSlice (pool m0) ->
  Start d1 a1 m0 = Ret ((Some A, None), m1) ->
  Stop d2 A m1 = Ret (r2, m2) ->
  Start d3 a3 m2 = Ret ((Some B, None), m3) ->
  exists m4 cB cfgB sel,
    Stop d4 A m3 = Ret (stopOutcome d4, m4) /\
    container B = Some cB /\ cConfig cB = Some cfgB /\
    CPUSet cfgB = Join (map Itoa (map Z.of_nat sel)) "," /\
    Z.of_nat (List.length sel) = runCPUs (provider m0) /\
    (forall k, In k sel -> nth_error (pool m3) k = Some true) /\
    (forall k, In k sel -> nth_error (pool m4) k = Some false).
Proof.
  intros Hg HA Hstop HB.
  destruct (Start_Stop_pool d1 d2 a1 m0 m1 A Hg HA) as [m2' [Hs2 Hp2]].
  rewrite Hs2 in Hstop. injection Hstop as _ <-.
  pose proof (Start_provider d1 a1 m0 m1 _ HA) as Hpr1.
  pose proof (Stop_provider d2 A m1 m2' _ Hs2) as Hpr2.
  assert (Hn : runCPUs (provider m2') = runCPUs (provider m0))
    by (rewrite Hpr2, Hpr1; reflexivity).
  pose proof (Start_returns_instance d1 a1 m0 m1 A None HA)
    as (Hp1 & cA & cfgA & HcA & HcfgA & HsA).
  pose proof (Start_returns_instance d3 a3 m2' m3 B None HB)
    as (Hp3 & cB & cfgB & HcB & HcfgB & HsB).
  rewrite Hn, Hp2 in Hp3, HsB.
  set (sel := lowestFree (runCPUs (provider m0)) (pool m0)) in *.
  assert (Hb : forall k, In k sel -> (k < List.length (pool m0))%nat)
    by (intros k; apply lowestFree_bound).
  destruct (Stop_releases d4 A cA cfgA sel m3 HcA HcfgA HsA)
    as [m4 [Hs4 Hp4]].
  - unfold goSlice in *. now rewrite Hp3, flagged_length.
  - intros k Hk. rewrite Hp3, flagged_length. now apply Hb.
  - exists m4, cB, cfgB, sel.
    repeat split; try assumption.
    + unfold sel. rewrite lowestFree_length.
      revert HA. unfold Start, bind, getProvider.
      destruct (resolveImage_cases d1 a1 m0) as [[[iid nm] ->]|[e ->]];
        [|unfold ret; discriminate].
      destruct (checkoutCPUSets m0) as [[[s [e|]] mB]|why] eqn:Ec;
        [unfold emit, ret; discriminate| |discriminate].
      intros _. apply checkout_success in Ec.
      destruct Ec as (_ & Hlen & _). rewrite lowestFree_length in Hlen.
      exact Hlen.
    + intros k Hk. rewrite Hp3.
      rewrite flagged_nth by now apply Hb.
      apply existsb_eqb_In in Hk. now rewrite Hk.
    + intros k Hk. rewrite Hp4.
      rewrite cleared_nth by (rewrite Hp3, flagged_length; now apply Hb).
      apply existsb_eqb_In in Hk. now rewrite Hk.
Qed.

Lemma Stop_twice_frees_reallocated_witness :
  exists A m1 r2 m2 B m3,
    Start (dockerOf [] (Some (containerOf "aaaaaaaaaaaa" false), None)
                    [(Some (containerOf "aaaaaaaaaaaa" true), None)]
                    None None)
          (mkAttrs "ruby" "travis:ruby") (machineOf 2 [false; false; false])
    = Ret ((Some A, None), m1) /\
    Stop (dockerOf [] (None, None) [] None None) A m1 = Ret (r2, m2) /\
    Start (dockerOf [] (Some (containerOf "bbbbbbbbbbbb" false), None)
                    [(Some (containerOf "bbbbbbbbbbbb" true), None)]
                    None None)
          (mkAttrs "go" "travis:go") m2
    = Ret ((Some B, None), m3) /\
    exists m4 cB cfgB sel,
      Stop (dockerOf [] (None, None) [] None None) A m3
      = Ret (stopOutcome (dockerOf [] (None, None) [] None None), m4) /\
      container B = Some cB /\ cConfig cB = Some cfgB /\
      CPUSet cfgB = Join (map Itoa (map Z.of_nat sel)) "," /\
      Z.of_nat (List.length sel) = 2 /\
      (forall k, In k sel -> nth_error (pool m3) k = Some true) /\
      (forall k, In k sel -> nth_error (pool m4) k = Some false).
Proof.
  do 6 eexists.
  split; [vm_compute; reflexivity|].
  split; [vm_compute; reflexivity|].
  split; [vm_compute; reflexivity|].
  eapply (Stop_twice_frees_reallocated
            (dockerOf [] (Some (containerOf "aaaaaaaaaaaa" false), None)
                      [(Some (containerOf "aaaaaaaaaaaa" true), None)]
                      None None)
            (dockerOf [] (None, None) [] None None)
            (dockerOf [] (Some (containerOf "bbbbbbbbbbbb" false), None)
                      [(Some (containerOf "bbbbbbbbbbbb" true), None)]
                      None None)
            (dockerOf [] (None, None) [] None None)
            (mkAttrs "ruby" "travis:ruby") (mkAttrs "go" "travis:go")
            (machineOf 2 [false; false; false])).
  - vm_compute. discriminate.
  - vm_compute. reflexivity.
  - vm_compute. reflexivity.
  - vm_compute. reflexivity.
Defined.

(** * Further properties of the secure-shell transport *)

(** X18. A failed re-inspection costs the instance its handle. When the
    inspection at the head of an upload fails and answers nil, the upload
    returns the inspection error as it is, the pool is untouched, and the
    instance that comes back has no container: its identity is the
    sentinel and every later [Stop] panics on the nil handle, so that its
    CPUs are never checked in. *)
Theorem upload_inspect_failure_loses_handle (d : docker) (peer : sshPeer)
  (i : dockerInstance) (script : string) (m : machine) (c0 : Container)
  (e : error) :
  container i = Some c0 ->
  InspectContainer d = (None, Some e) ->
  exists i' m',
    uploadScriptSCP d peer i script m = Ret ((i', Some e), m') /\
    provider m' = provider m /\
    container i' = None /\
    dockerInstance_ID i' = Ret "{unidentified}" /\
    forall d' m'',
      Stop d' i' m'' = Panic "invalid memory address or nil pointer dereference".
Proof.
  intros Hc Hi.
  unfold uploadScriptSCP, sshConnection, bind, getProvider, deref, emit, ret.
  rewrite Hc, Hi. simpl.
  eexists. eexists. split; [reflexivity|].
  repeat split.
Qed.

Lemma upload_inspect_failure_witness :
  exists i' m',
    uploadScriptSCP
      (dockerInspecting (None, Some (Errorf "No such container")))
      (peerOf (0, None) None)
      (instanceOf "0123456789abcdef" "travis:ruby") "echo"
      (machineWith [])
    = Ret ((i', Some (Errorf "No such container")), m') /\
    provider m' = provider (machineWith []) /\
    container i' = None /\
    dockerInstance_ID i' = Ret "{unidentified}" /\
    forall d' m'',
      Stop d' i' m'' = Panic "invalid memory address or nil pointer dereference".
Proof.
  apply (upload_inspect_failure_loses_handle
           (dockerInspecting (None, Some (Errorf "No such container")))
           (peerOf (0, None) None)
           (instanceOf "0123456789abcdef" "travis:ruby") "echo"
           (machineWith []) (containerOf "0123456789abcdef" true)).
  - reflexivity.
  - reflexivity.
Defined.

(** X19. The connection is used for one call and always closed. Once
    connected, an upload makes exactly one [UploadFile] call, for
    "build.sh" with the bytes of the script, and a run makes exactly one
    [RunCommand] call, for the execution command joined with spaces; in
    both the connection is closed right after, whatever the call returned.
    Neither touches the provider. When the connection attempt fails,
    nothing is sent to the peer: the state is the one the attempt left. *)
Theorem ssh_session_discipline (d : docker) (peer : sshPeer)
  (i i1 : dockerInstance) (script : string) (m m1 : machine)
  (conn : option error) :
  sshConnection d peer i m = Ret ((i1, conn), m1) ->
  (conn = None ->
   (exists r m',
      uploadScriptSCP d peer i script m = Ret ((i1, r), m') /\
      provider m' = provider m /\
      events m'
      = (events m1 ++ [UploadFileCall "build.sh" script; CloseCall])%list) /\
   (exists r,
      runScriptSSH d peer i m
      = Ret ((i1, r),
             addEvents m1
               [RunCommandCall (Join (execCmd (provider m)) " ");
                CloseCall]))) /\
  (forall e, conn = Some e ->
     uploadScriptSCP d peer i script m = Ret ((i1, Some e), m1) /\
     runScriptSSH d peer i m
     = Ret ((i1, (mkRunResult false 0,
                  Some (Wrapped e "couldn't connect to SSH server"))), m1)).
Proof.
  intros Hc.
  destruct (sshConnection_frame d peer i i1 conn m m1 Hc) as [Hp Hr].
  split.
  - intros ->. split.
    + unfold uploadScriptSCP, bind. rewrite Hc.
      unfold UploadFile, bind, emit, ret; simpl.
      destruct (lookupFile "build.sh" (remoteFiles m1)) as [old|];
        [|destruct (writeErr peer) as [e|]]; simpl;
        eexists; eexists; (split; [reflexivity|]); simpl;
        rewrite <- ?app_assoc; simpl; auto.
    + unfold runScriptSSH, bind, getProvider. rewrite Hc.
      destruct (RunCommand peer) as [exitStatus err].
      unfold emit, ret, addEvents; simpl.
      rewrite <- app_assoc. simpl. eauto.
  - intros e ->. split.
    + unfold uploadScriptSCP, bind. now rewrite Hc.
    + unfold runScriptSSH, bind, getProvider. now rewrite Hc.
Qed.

Lemma ssh_session_discipline_witness :
  exists r,
    runScriptSSH dockerSSH (peerOf (3, None) None)
      (instanceOf "0123456789abcdef" "travis:ruby") (machineWith [])
    = Ret ((instanceOf "0123456789abcdef" "travis:ruby", r),
           addEvents
             (mkMachine (providerOf 2 [true; true]) []
                [InspectContainerCall "0123456789abcdef";
                 DialCall "172.17.0.2:22" "travis" 5])
             [RunCommandCall "bash /home/travis/build.sh"; CloseCall]).
Proof.
  refine (proj2 (proj1 (ssh_session_discipline dockerSSH
                   (peerOf (3, None) None)
                   (instanceOf "0123456789abcdef" "travis:ruby")
                   (instanceOf "0123456789abcdef" "travis:ruby")
                   EmptyString (machineWith [])
                   (mkMachine (providerOf 2 [true; true]) []
                      [InspectContainerCall "0123456789abcdef";
                       DialCall "172.17.0.2:22" "travis" 5])
                   None _) eq_refl)).
  vm_compute. reflexivity.
Defined.

(** * Properties of the construction *)

Lemma freeFrom_repeat (i k : nat) : freeFrom i (repeat false k) = seq i k.
Proof.
  revert i; induction k as [|k IH]; intros i; simpl; [reflexivity|].
  now rewrite IH.
Qed.

(** The flags of a provider the constructor returned. *)
Lemma newDockerProvider_flags (pl : platform) (cfg : ProviderConfig)
  (p : dockerProvider) :
  newDockerProvider pl cfg = Ret (inr p) ->
  exists size,
    (if IsSet cfg "CPU_SET_SIZE"
     then ParseInt (Get cfg "CPU_SET_SIZE") = Some size
     else size = match NumCPU pl with Some n => n | None => 0 end) /\
    cpuSets p = repeat false (Z.to_nat (Z.max 2 size)) /\
    2 <= Z.of_nat (List.length (cpuSets p)) /\
    freeCount (cpuSets p) = Z.of_nat (List.length (cpuSets p)).
Proof.
  intros H.
  assert (Hgen : forall size0,
             (if size0 <? 2 then 2 else size0) = Z.max 2 size0).
  { intros s0. destruct (Z.ltb_spec s0 2); lia. }
  assert (Hrep : forall k,
             (2 <= k)%nat ->
             2 <= Z.of_nat (List.length (repeat false k)) /\
             freeCount (repeat false k)
             = Z.of_nat (List.length (repeat false k))).
  { intros k Hk. unfold freeCount, freeIndices.
    rewrite freeFrom_repeat, length_seq, repeat_length. lia. }
  unfold newDockerProvider in H.
  destruct (buildDockerClient pl cfg); [discriminate|].
  destruct (if IsSet cfg "NATIVE" then _ else _); [discriminate|].
  destruct (IsSet cfg "CPU_SET_SIZE") eqn:Eset.
  - destruct (ParseInt (Get cfg "CPU_SET_SIZE")) as [size|] eqn:Ep;
      [|discriminate].
    exists size. split; [reflexivity|].
    destruct (if IsSet cfg "PRIVILEGED" then _ else _); [discriminate|].
    destruct (if IsSet cfg "SSH_DIAL_TIMEOUT" then _ else _);
      [|discriminate].
    destruct (NewDialerWithPassword pl "travis"); [discriminate|].
    destruct (negb _ && negb _); [discriminate|].
    destruct (buildDockerImageSelector pl _ cfg); [discriminate|].
    unfold makeBools in H. rewrite Hgen in H.
    destruct ((Z.max 2 size <? 0) || (maxAlloc pl <? Z.max 2 size));
      [discriminate|].
    injection H as <-. simpl. split; [reflexivity|].
    apply Hrep. lia.
  - set (size := match NumCPU pl with Some n => n | None => 0 end) in *.
    exists size. split; [reflexivity|].
    destruct (if IsSet cfg "PRIVILEGED" then _ else _); [discriminate|].
    destruct (if IsSet cfg "SSH_DIAL_TIMEOUT" then _ else _);
      [|discriminate].
    destruct (NewDialerWithPassword pl "travis"); [discriminate|].
    destruct (negb _ && negb _); [discriminate|].
    destruct (buildDockerImageSelector pl _ cfg); [discriminate|].
    unfold makeBools in H. rewrite Hgen in H.
    destruct ((Z.max 2 size <? 0) || (maxAlloc pl <? Z.max 2 size));
      [discriminate|].
    injection H as <-. simpl. split; [reflexivity|].
    apply Hrep. lia.
Qed.

(** X20. Every provider the constructor returns starts with a pool of at
    least two slots, all of them free. The size is [CPU_SET_SIZE] when it
    is set, else the CPU count of the machine (0 without a counter), and
    is raised to 2 when it is less. *)
Theorem newDockerProvider_pool (pl : platform) (cfg : ProviderConfig)
  (p : dockerProvider) :
  newDockerProvider pl cfg = Ret (inr p) ->
  exists size,
    (if IsSet cfg "CPU_SET_SIZE"
     then ParseInt (Get cfg "CPU_SET_SIZE") = Some size
     else size = match NumCPU pl with Some n => n | None => 0 end) /\
    cpuSets p = repeat false (Z.to_nat (Z.max 2 size)) /\
    2 <= Z.of_nat (List.length (cpuSets p)) /\
    freeCount (cpuSets p) = Z.of_nat (List.length (cpuSets p)).
Proof. exact (newDockerProvider_flags pl cfg p). Qed.

Lemma newDockerProvider_pool_witness :
  exists size,
    ParseInt "1" = Some size /\
    cpuSets (mkProvider 5000000000 false ["/sbin/init"] 4294967296 67108864
               2 false ["bash"; "/home/travis/build.sh"] defaultTmpfsMap
               TagSelector [false; false])
    = repeat false (Z.to_nat (Z.max 2 size)) /\
    2 <= 2 /\ freeCount [false; false] = 2.
Proof.
  apply (newDockerProvider_pool (platformOf (Some 8))
           (configOf [("ENDPOINT", "unix:///var/run/docker.sock");
                      ("CPU_SET_SIZE", "1")])
           (mkProvider 5000000000 false ["/sbin/init"] 4294967296 67108864
              2 false ["bash"; "/home/travis/build.sh"] defaultTmpfsMap
              TagSelector [false; false])).
  vm_compute. reflexivity.
Defined.

(** A checkout fails only with the one error. *)
Lemma checkout_error_is (m m' : machine) (s : string) (e : error) :
  checkoutCPUSets m = Ret ((s, Some e), m') -> e = errNotEnough.
Proof.
  unfold checkoutCPUSets, bind, getProvider, ret.
  destruct (negb _).
  - intros E. now injection E as _ <- _.
  - destruct (markAll _ _); [|discriminate].
    unfold putCPUSets. discriminate.
Qed.

(** When the checkout cannot succeed, [Start] fails before the daemon. *)
Lemma Start_checkout_fails (d : docker) (a : StartAttributes) (m : machine) :
  (forall s m', checkoutCPUSets m <> Ret ((s, None), m')) ->
  exists e es,
    Start d a m = Ret ((None, Some e), addEvents m es) /\ Forall isLog es.
Proof.
  intros Hno. unfold Start, bind, getProvider.
  destruct (resolveImage_cases d a m) as [[[imageID name] ->]|[e ->]].
  - destruct (checkoutCPUSets m) as [[[s [e|]] mB]|why] eqn:Ec.
    + pose proof (checkout_error_state _ _ _ _ Ec) as ->.
      exists e, [LogError "couldn't checkout CPUSets" e].
      split; [reflexivity|]. repeat constructor.
    + exfalso. now apply (Hno s mB).
    + now apply checkout_no_panic in Ec.
  - exists e, [LogError "couldn't select image" e].
    split; [reflexivity|]. repeat constructor.
Qed.

Lemma lowestFree_fresh (n : Z) (k : nat) :
  0 <= n <= Z.of_nat k ->
  lowestFree n (repeat false k) = seq 0 (Z.to_nat n).
Proof.
  intros H. unfold lowestFree, freeIndices. rewrite freeFrom_repeat.
  replace k with (Z.to_nat n + (k - Z.to_nat n))%nat at 1 by lia.
  rewrite seq_app, firstn_app, length_seq, Nat.sub_diag, firstn_O.
  rewrite app_nil_r. apply firstn_all2. rewrite length_seq. lia.
Qed.

(** X21. What a freshly built provider can serve. When the CPU count per
    container is between 1 and the size of the pool, the first checkout
    succeeds and assigns the indices 0 to n-1. In every other case, a count
    of 0 included, every [Start] on the fresh provider fails before it asks
    for any container: it returns an error and no instance, and the state
    is as before, the pool included, but for a trace that grew by lines of
    the log only (the images may have been listed, which the trace does
    not record). *)
Theorem fresh_provider_first_checkout (pl : platform) (cfg : ProviderConfig)
  (p : dockerProvider) (m : machine) :
  newDockerProvider pl cfg = Ret (inr p) ->
  provider m = p ->
  (1 <= runCPUs p <= Z.of_nat (List.length (cpuSets p)) ->
   exists m',
     checkoutCPUSets m
     = Ret ((Join (map Itoa (map Z.of_nat (seq 0 (Z.to_nat (runCPUs p)))))
                  ",", None), m')) /\
  (~ (1 <= runCPUs p <= Z.of_nat (List.length (cpuSets p))) ->
   forall d a,
     exists e es,
       Start d a m = Ret ((None, Some e), addEvents m es) /\
       Forall isLog es).
Proof.
  intros Hnew Hm.
  destruct (newDockerProvider_flags pl cfg p Hnew)
    as (size & _ & Hpool & Hlen & Hfree).
  split.
  - intros Hn. subst p.
    rewrite checkout_lowest
      by (unfold pool; rewrite ?Hfree; lia).
    assert (Hl : lowestFree (runCPUs (provider m)) (pool m)
                 = seq 0 (Z.to_nat (runCPUs (provider m)))).
    { unfold pool. rewrite Hpool. apply lowestFree_fresh.
      rewrite Hpool, repeat_length in Hn. lia. }
    rewrite Hl. eauto.
  - intros Hn d a. apply Start_checkout_fails.
    intros s m' Hc.
    assert (Hex : exists s m', checkoutCPUSets m = Ret ((s, None), m'))
      by eauto.
    apply checkout_success_cases in Hex. subst p. unfold pool in Hex.
    destruct Hex as [Hex|[H0 [Hnil|[rest Hrest]]]].
    + apply Hn. rewrite <- Hfree. exact Hex.
    + rewrite Hnil in Hlen. simpl in Hlen. lia.
    + rewrite Hpool in Hrest.
      destruct (Z.to_nat (Z.max 2 size)); discriminate.
Qed.

Lemma fresh_provider_first_checkout_witness :
  exists e es,
    Start (dockerOf [] (None, None) [] None None)
          (mkAttrs "ruby" "travis:ruby")
          (mkMachine
             (mkProvider 5000000000 false ["/sbin/init"] 4294967296
                67108864 0 false ["bash"; "/home/travis/build.sh"]
                defaultTmpfsMap TagSelector [false; false; false])
             [] [])
    = Ret ((None, Some e),
           addEvents
             (mkMachine
                (mkProvider 5000000000 false ["/sbin/init"] 4294967296
                   67108864 0 false ["bash"; "/home/travis/build.sh"]
                   defaultTmpfsMap TagSelector [false; false; false])
                [] []) es) /\
    Forall isLog es.
Proof.
  apply (proj2 (fresh_provider_first_checkout (platformOf (Some 3))
                  (configOf [("HOST", "tcp://127.0.0.1:2375");
                             ("CPUS", "0")])
                  (mkProvider 5000000000 false ["/sbin/init"] 4294967296
                     67108864 0 false ["bash"; "/home/travis/build.sh"]
                     defaultTmpfsMap TagSelector [false; false; false])
                  (mkMachine
                     (mkProvider 5000000000 false ["/sbin/init"] 4294967296
                        67108864 0 false ["bash"; "/home/travis/build.sh"]
                        defaultTmpfsMap TagSelector [false; false; false])
                     [] [])
                  ltac:(vm_compute; reflexivity) eq_refl)).
  vm_compute. intros [H _]. apply H. reflexivity.
Defined.

Ltac other_key H key :=
  let Hi := fresh "Hi" in
  let Hg := fresh "Hg" in
  destruct (H key) as [Hi Hg];
  [ simpl; intros [?|[?|[?|[]]]]; discriminate
  | rewrite ?Hi, ?Hg; clear Hi Hg ].

(** X22. The quotas never make the construction fail. Two configurations
    that differ only in [MEMORY], [SHM] and [CPUS] both fail with the same
    error, or both panic, or both give a provider, and then the two
    providers differ in nothing but the three quotas: a value that does
    not parse is passed over in silence for the default. *)
Theorem quotas_never_fail_construction (pl : platform)
  (c1 c2 : ProviderConfig) :
  agreeOutside ["MEMORY"; "SHM"; "CPUS"] c1 c2 ->
  match newDockerProvider pl c1, newDockerProvider pl c2 with
  | Ret (inl e1), Ret (inl e2) => e1 = e2
  | Ret (inr p1), Ret (inr p2) => p1 = withQuotas p2 p1
  | Panic w1, Panic w2 => w1 = w2
  | _, _ => False
  end.
Proof.
  intros H.
  assert (Hclient : buildDockerClient pl c1 = buildDockerClient pl c2).
  { unfold buildDockerClient.
    other_key H "ENDPOINT". other_key H "HOST". other_key H "CERT_PATH".
    reflexivity. }
  assert (Hsel : forall t, buildDockerImageSelector pl t c1
                           = buildDockerImageSelector pl t c2).
  { intros t. unfold buildDockerImageSelector.
    other_key H "IMAGE_SELECTOR_URL". reflexivity. }
  unfold newDockerProvider. rewrite Hclient.
  other_key H "NATIVE". other_key H "CPU_SET_SIZE".
  other_key H "PRIVILEGED". other_key H "CMD". other_key H "EXEC_CMD".
  other_key H "TMPFS_MAP". other_key H "SSH_DIAL_TIMEOUT".
  other_key H "IMAGE_SELECTOR_TYPE".
  clear H Hclient.
  destruct (buildDockerClient pl c2); [reflexivity|].
  destruct (if IsSet c2 "NATIVE" then _ else _); [reflexivity|].
  destruct (if IsSet c2 "CPU_SET_SIZE" then _ else _); [reflexivity|].
  destruct (if IsSet c2 "PRIVILEGED" then _ else _); [reflexivity|].
  destruct (if IsSet c2 "SSH_DIAL_TIMEOUT" then _ else _); [|reflexivity].
  destruct (NewDialerWithPassword pl "travis"); [reflexivity|].
  destruct (negb _ && negb _); [reflexivity|].
  rewrite Hsel.
  destruct (buildDockerImageSelector pl _ c2); [reflexivity|].
  destruct (makeBools pl _); reflexivity.
Qed.

Lemma quotas_never_fail_witness :
  match newDockerProvider (platformOf (Some 4))
          (configOf [("ENDPOINT", "unix:///var/run/docker.sock");
                     ("MEMORY", "lots"); ("CPUS", "many")]),
        newDockerProvider (platformOf (Some 4))
          (configOf [("ENDPOINT", "unix:///var/run/docker.sock")])
  with
  | Ret (inl e1), Ret (inl e2) => e1 = e2
  | Ret (inr p1), Ret (inr p2) => p1 = withQuotas p2 p1
  | Panic w1, Panic w2 => w1 = w2
  | _, _ => False
  end.
Proof.
  apply (quotas_never_fail_construction (platformOf (Some 4))
           (configOf [("ENDPOINT", "unix:///var/run/docker.sock");
                      ("MEMORY", "lots"); ("CPUS", "many")])
           (configOf [("ENDPOINT", "unix:///var/run/docker.sock")])).
  intros key Hkey. unfold configOf. cbn [IsSet Get lookupFile].
  destruct (String.eqb "ENDPOINT" key); [split; reflexivity|].
  destruct (String.eqb_spec "MEMORY" key) as [<-|_];
    [exfalso; apply Hkey; simpl; tauto|].
  destruct (String.eqb_spec "CPUS" key) as [<-|_];
    [exfalso; apply Hkey; simpl; tauto|].
  split; reflexivity.
Defined.

(** X23. The constructor returns a provider only from a configuration it
    has validated: an endpoint or a host is set; [NATIVE] and
    [PRIVILEGED], when set, are booleans as [strconv.ParseBool] reads
    them, and the provider's flags are their values (false when unset);
    the selector type is "tag" (also when unset) or "api", and the
    provider's selector is the matching one. *)
Theorem newDockerProvider_validates (pl : platform) (cfg : ProviderConfig)
  (p : dockerProvider) :
  newDockerProvider pl cfg = Ret (inr p) ->
  (IsSet cfg "ENDPOINT" = true \/ IsSet cfg "HOST" = true) /\
  (if IsSet cfg "NATIVE"
   then ParseBool (Get cfg "NATIVE") = Some (runNative p)
   else runNative p = false) /\
  (if IsSet cfg "PRIVILEGED"
   then ParseBool (Get cfg "PRIVILEGED") = Some (runPrivileged p)
   else runPrivileged p = false) /\
  (let selectorType :=
     if IsSet cfg "IMAGE_SELECTOR_TYPE" then Get cfg "IMAGE_SELECTOR_TYPE"
     else "tag" in
   (selectorType = "tag" /\ imageSelector p = TagSelector) \/
   (selectorType = "api" /\ imageSelector p = APISelector)).
Proof.
  intros H. unfold newDockerProvider in H.
  destruct (buildDockerClient pl cfg) as [e|req] eqn:Ec; [discriminate|].
  assert (Hend : IsSet cfg "ENDPOINT" = true \/ IsSet cfg "HOST" = true).
  { unfold buildDockerClient in Ec.
    destruct (IsSet cfg "ENDPOINT"); [now left|].
    destruct (IsSet cfg "HOST"); [now right|]. discriminate. }
  split; [exact Hend|]. clear Hend Ec.
  destruct (IsSet cfg "NATIVE");
    [destruct (ParseBool (Get cfg "NATIVE")) as [native|];
     [|discriminate]|];
  (destruct (if IsSet cfg "CPU_SET_SIZE" then _ else _); [discriminate|]);
  (destruct (IsSet cfg "PRIVILEGED");
   [destruct (ParseBool (Get cfg "PRIVILEGED")) as [priv|];
    [|discriminate]|]);
  (destruct (if IsSet cfg "SSH_DIAL_TIMEOUT" then _ else _);
   [|discriminate]);
  (destruct (NewDialerWithPassword pl "travis"); [discriminate|]);
  set (selectorType := if IsSet cfg "IMAGE_SELECTOR_TYPE" then _ else _)
    in *;
  unfold buildDockerImageSelector in H;
  (destruct (String.eqb_spec selectorType "tag") as [Ht|Ht];
   [|destruct (String.eqb_spec selectorType "api") as [Ha|Ha];
     [|discriminate]]);
  cbn [negb andb] in H;
  try (destruct (urlParse pl _); [discriminate|]);
  (destruct (makeBools pl _); [|discriminate]);
  injection H as <-; cbn [runNative runPrivileged imageSelector];
  repeat split; auto.
Qed.

Lemma newDockerProvider_validates_witness :
  (IsSet (configOf [("HOST", "tcp://127.0.0.1:2375"); ("NATIVE", "T");
                    ("IMAGE_SELECTOR_TYPE", "api")]) "ENDPOINT" = true \/
   IsSet (configOf [("HOST", "tcp://127.0.0.1:2375"); ("NATIVE", "T");
                    ("IMAGE_SELECTOR_TYPE", "api")]) "HOST" = true) /\
  ParseBool "T" = Some true /\
  false = false /\
  (("api" = "tag" /\ APISelector = TagSelector) \/
   ("api" = "api" /\ APISelector = APISelector)).
Proof.
  apply (newDockerProvider_validates (platformOf None)
           (configOf [("HOST", "tcp://127.0.0.1:2375"); ("NATIVE", "T");
                      ("IMAGE_SELECTOR_TYPE", "api")])
           (mkProvider 5000000000 false ["/sbin/init"] 4294967296 67108864
              2 true ["bash"; "/home/travis/build.sh"] defaultTmpfsMap
              APISelector [false; false])).
  vm_compute. reflexivity.
Defined.

(** * Pool safety over sequences of operations *)

Section PoolSafety.

(** Clearing a flag that was set frees one more index. *)
Lemma freeFrom_update_clear (l : list bool) (i j : nat) :
  nth_error l i = Some true ->
  List.length (freeFrom j (update l i false))
  = S (List.length (freeFrom j l)).
Proof.
  revert i j; induction l as [|b l IH]; intros [|i] j H; simpl in *;
    try discriminate.
  - injection H as ->. reflexivity.
  - destruct b; simpl; now rewrite IH.
Qed.

Lemma cleared_count (sel : list nat) (flags : list bool) :
  NoDup sel ->
  (forall k, In k sel -> nth_error flags k = Some true) ->
  freeCount (cleared sel flags)
  = freeCount flags + Z.of_nat (List.length sel).
Proof.
  revert flags; induction sel as [|i sel IH]; intros flags Hnd H.
  - unfold cleared; simpl. lia.
  - inversion Hnd as [|? ? Hni Hnd']; subst.
    change (cleared (i :: sel) flags)
      with (cleared sel (update flags i false)).
    rewrite IH; [|assumption|].
    + unfold freeCount, freeIndices.
      rewrite freeFrom_update_clear by (apply H; now left).
      simpl List.length. lia.
    + intros k Hk. rewrite update_nth_other by (intros ->; contradiction).
      apply H. now right.
Qed.

Lemma sorted_NoDup (l : list nat) : StronglySorted lt l -> NoDup l.
Proof.
  induction 1 as [|a l Hs IH Hall]; constructor; [|assumption].
  intros Hin. rewrite Forall_forall in Hall. apply Hall in Hin. lia.
Qed.

Lemma lowestFree_NoDup (n : Z) (flags : list bool) :
  NoDup (lowestFree n flags).
Proof.
  apply sorted_NoDup. unfold lowestFree, freeIndices.
  pose proof (freeFrom_sorted flags 0) as Hs.
  rewrite <- (firstn_skipn (Z.to_nat n) (freeFrom 0 flags)) in Hs.
  now apply sorted_app_inv in Hs.
Qed.

Lemma NoDup_app_inv (a b : list nat) :
  NoDup (a ++ b) ->
  NoDup a /\ NoDup b /\ forall k, In k a -> ~ In k b.
Proof.
  intros H. split; [eapply NoDup_app_remove_r; eassumption|].
  split; [eapply NoDup_app_remove_l; eassumption|].
  induction a as [|x a IH]; simpl in *; [tauto|].
  inversion H as [|? ? Hx Ha]; subst.
  intros k [<-|Hk] Hb.
  - apply Hx. apply in_or_app. now right.
  - now apply (IH Ha k).
Qed.

Lemma NoDup_middle (a b c : list nat) :
  NoDup (a ++ b ++ c) ->
  NoDup (a ++ c) /\ NoDup b /\ forall k, In k b -> ~ In k (a ++ c).
Proof.
  intros H.
  apply (Permutation_NoDup (Permutation_app_swap_app a b c)) in H.
  apply NoDup_app_inv in H. tauto.
Qed.

Lemma setCPUSets_twice (p : dockerProvider) (f g : list bool) :
  setCPUSets (setCPUSets p f) g = setCPUSets p g.
Proof. reflexivity. Qed.

Lemma length_concat_uniform (sels : list (list nat)) (n : Z) :
  (forall sel, In sel sels -> Z.of_nat (List.length sel) = n) ->
  Z.of_nat (List.length (concat sels)) = n * Z.of_nat (List.length sels).
Proof.
  induction sels as [|sel sels IH]; intros H; simpl; [lia|].
  rewrite length_app, Nat2Z.inj_add, IH by (intros x Hx; apply H; now right).
  rewrite (H sel) by now left. lia.
Qed.

(** The invariant of the pool, along every sequence of operations. *)
Lemma reachable_poolInv (m0 m : machine) (out : list string) :
  goSlice (pool m0) ->
  freeCount (pool m0) = Z.of_nat (List.length (pool m0)) ->
  reachable m0 m out ->
  exists sels, out = map printed sels /\ poolInv m0 m sels.
Proof.
  intros Hg Hfree Hr. induction Hr as
      [|m m' out s Hr IH Hc|m m' out s e Hr IH Hc|m m' out1 out2 s Hr IH Hc].
  - exists []. split; [reflexivity|]. unfold poolInv. simpl.
    repeat split; try tauto.
    + unfold pool. now rewrite setCPUSets_same.
    + constructor.
    + lia.
  - destruct IH as (sels & -> & Hp & Hl & Hnd & Hfl & Hlen & Hcount).
    pose proof (checkout_free_list _ _ _ Hc) as [_ Hacc].
    apply checkout_success in Hc.
    destruct Hc as (Hn & Hsl & -> & ->).
    assert (Hrun : runCPUs (provider m) = runCPUs (provider m0))
      by (rewrite Hp; reflexivity).
    set (sel := lowestFree (runCPUs (provider m)) (pool m)) in *.
    exists (sel :: sels). split; [reflexivity|].
    unfold poolInv. rewrite pool_withPool in *. simpl concat.
    repeat split.
    + simpl. rewrite Hp. reflexivity.
    + now rewrite flagged_length.
    + apply NoDup_app; [apply lowestFree_NoDup|assumption|].
      intros k Hk Hin. apply lowestFree_In in Hk. apply Hfl in Hin.
      congruence.
    + intros k Hk.
      assert (Hlt : (k < List.length (pool m))%nat).
      { apply in_app_or in Hk. destruct Hk as [Hk|Hk].
        - eapply lowestFree_bound; eassumption.
        - apply nth_error_Some. rewrite (Hfl k Hk). discriminate. }
      rewrite flagged_nth by assumption.
      destruct (existsb (Nat.eqb k) sel) eqn:E; [reflexivity|].
      apply in_app_or in Hk. destruct Hk as [Hk|Hk]; [|now apply Hfl].
      apply existsb_eqb_In in Hk. congruence.
    + intros x [<-|Hx]; [congruence|now apply Hlen].
    + rewrite length_app, Nat2Z.inj_add. lia.
  - apply checkout_error_state in Hc. subst m'. exact IH.
  - destruct IH as (sels & Hout & Hp & Hl & Hnd & Hfl & Hlen & Hcount).
    symmetry in Hout.
    apply map_eq_app in Hout. destruct Hout as (s1 & rest & -> & <- & Hrest).
    apply map_eq_cons in Hrest. destruct Hrest as (sel & s2 & -> & <- & <-).
    rewrite concat_app in Hnd, Hfl, Hcount. simpl concat in Hnd, Hfl, Hcount.
    destruct (NoDup_middle _ _ _ Hnd) as (Hnd' & Hsel & Hdis).
    assert (Hselfl : forall k, In k sel -> nth_error (pool m) k = Some true).
    { intros k Hk. apply Hfl. rewrite !in_app_iff. tauto. }
    assert (Hsellt : forall k, In k sel -> (k < List.length (pool m))%nat).
    { intros k Hk. apply nth_error_Some. rewrite (Hselfl k Hk).
      discriminate. }
    unfold printed in Hc.
    rewrite (checkin_run _ _ (cleared sel (pool m))) in Hc.
    + injection Hc as <-.
      exists (s1 ++ s2)%list. split; [now rewrite map_app|].
      unfold poolInv. rewrite pool_withPool, concat_app.
      repeat split.
      * simpl. rewrite Hp. reflexivity.
      * now rewrite cleared_length.
      * exact Hnd'.
      * intros k Hk. rewrite cleared_nth.
        -- destruct (existsb (Nat.eqb k) sel) eqn:E.
           ++ apply existsb_eqb_In in E. now apply Hdis in E.
           ++ apply Hfl. rewrite !in_app_iff in *. tauto.
        -- apply nth_error_Some. rewrite (Hfl k); [discriminate|].
           rewrite !in_app_iff in *. tauto.
      * intros x Hx. apply Hlen. rewrite in_app_iff in *. simpl. tauto.
      * rewrite cleared_count by assumption.
        rewrite !length_app, !Nat2Z.inj_add in *. lia.
    + apply checkinTokens_assignment; [|assumption].
      unfold goSlice in *. now rewrite Hl.
Qed.

End PoolSafety.

(** X24. Pool safety. From a pool with every slot free, after any
    sequence of checkouts, refused checkouts and check-ins of outstanding
    assignments, the pool has its original length, the outstanding
    assignments are sets of indices that share no index and are all
    flagged, and the number of free indices is the length of the pool less
    the CPU count times the number of outstanding assignments. *)
Theorem pool_safety (m0 m : machine) (out : list string) :
  goSlice (pool m0) ->
  freeCount (pool m0) = Z.of_nat (List.length (pool m0)) ->
  reachable m0 m out ->
  List.length (pool m) = List.length (pool m0) /\
  freeCount (pool m)
  = Z.of_nat (List.length (pool m0))
    - runCPUs (provider m0) * Z.of_nat (List.length out) /\
  exists sels,
    out = map printed sels /\
    NoDup (concat sels) /\
    forall k, In k (concat sels) -> nth_error (pool m) k = Some true.
Proof.
  intros Hg Hfree Hr.
  destruct (reachable_poolInv m0 m out Hg Hfree Hr)
    as (sels & -> & Hp & Hl & Hnd & Hfl & Hlen & Hcount).
  split; [exact Hl|]. split.
  - rewrite length_map.
    rewrite (length_concat_uniform sels _ Hlen) in Hcount. lia.
  - exists sels. auto.
Qed.

Lemma pool_safety_witness :
  List.length (pool (machineOf 2 [false; false; true; true; false]))
  = List.length (pool (machineOf 2 [false; false; false; false; false])) /\
  freeCount (pool (machineOf 2 [false; false; true; true; false]))
  = 5 - 2 * 1 /\
  exists sels,
    ["2,3"] = map printed sels /\
    NoDup (concat sels) /\
    forall k, In k (concat sels) ->
              nth_error (pool (machineOf 2 [false; false; true; true; false]))
                        k = Some true.
Proof.
  apply (pool_safety (machineOf 2 [false; false; false; false; false])
           (machineOf 2 [false; false; true; true; false]) ["2,3"]).
  - vm_compute. discriminate.
  - reflexivity.
  - apply (reach_checkin _ (machineOf 2 [true; true; true; true; false])
             _ ["2,3"] [] "0,1"); [|reflexivity].
    apply (reach_checkout _ (machineOf 2 [true; true; false; false; false]));
      [|reflexivity].
    apply (reach_checkout _ (machineOf 2 [false; false; false; false; false]));
      [|reflexivity].
    apply reach_start.
Defined.


